(** * Bot hosting service ([app.js]): lifecycle bookkeeping

    A shallow embedding of the Express application in [app.js]: the record
    store persisted in [bots.json], the in-memory table [runningProcesses],
    the upload handler behind the multer disk storage, and the lifecycle
    routes (start, stop, delete, logs, status, listing).

    Modelling conventions.
    - JavaScript strings are Rocq strings of ASCII characters.
    - A JavaScript object used as a dictionary is a [gmap string V] holding
      its own properties; reading [o[k]] also sees the properties every
      plain object inherits from [Object.prototype] (see [JsObject.get]).
    - A route handler is a function from the state of the service to a
      response and a new state.  The clock readings [Date.now()] and
      [new Date().toISOString()] are arguments of the handlers.
    - Disk and process operations are assumed not to fail (no I/O errors,
      no corrupt [bots.json]); the exceptions modelled are the ones the
      JavaScript code raises by itself.  So [loadBots], [saveBots] and
      [spawn] are total, and the answer 500 that the [catch] of a handler
      gives when one of them throws -- possibly after the registry was
      changed -- has no counterpart here.  Directories are not modelled:
      the per-user directory is created on demand and nothing else
      depends on it.
    - The multer middleware is modelled for a request whose text fields
      come before the file part, whose file part has a name, and whose
      stored file can be written (see [upload_single]).  The route handler
      itself, [upload_handler], is modelled for whatever multer hands
      over. *)

From stdpp Require Import gmap strings pretty list.
From Stdlib Require Import Ascii String ZArith.

Set Warnings "-clear-no-such-hyp".

Local Open Scope string_scope.
Local Open Scope Z_scope.

(** ** JavaScript strings *)

Module JsString.

(** The ASCII characters of the class [\s]. *)
Definition is_whitespace (c : ascii) : bool :=
  match c with
  | "009" | "010" | "011" | "012" | "013" | " " => true
  | _ => false
  end%char.

(** [s.replace(/\s+/g, '_')]: every maximal run of whitespace becomes one
    underscore.  [in_run] tells that the previous character was
    whitespace (its underscore is already written). *)
Fixpoint replace_ws_go (in_run : bool) (s : string) : string :=
  match s with
  | EmptyString => EmptyString
  | String c rest =>
      if is_whitespace c
      then if in_run then replace_ws_go true rest
           else String "_" (replace_ws_go true rest)
      else String c (replace_ws_go false rest)
  end.

Definition replace_whitespace_runs (s : string) : string :=
  replace_ws_go false s.

(** [s.slice(a, b)] for [0 <= a], [0 <= b]. *)
Definition slice (s : string) (a b : Z) : string :=
  String.substring (Z.to_nat a) (Z.to_nat (b - a)) s.

(** [s.substring(1)]. *)
Definition substring1 (s : string) : string :=
  match s with
  | EmptyString => EmptyString
  | String _ rest => rest
  end.

(** A template literal renders a missing value as the text "undefined". *)
Definition template (v : option string) : string :=
  match v with Some x => x | None => "undefined" end.

(** [!v] for a value that is a string when present: missing and the empty
    string are the falsy ones. *)
Definition falsy (v : option string) : bool :=
  match v with
  | None => true
  | Some x => bool_decide (x = "")
  end.

(** [P] holds of every character of [s]. *)
Fixpoint every (P : ascii → bool) (s : string) : bool :=
  match s with
  | EmptyString => true
  | String c rest => P c && every P rest
  end.

Definition has_whitespace (s : string) : bool :=
  negb (every (λ c, negb (is_whitespace c)) s).

Definition is_digit (c : ascii) : bool :=
  match c with
  | "0" | "1" | "2" | "3" | "4" | "5" | "6" | "7" | "8" | "9" => true
  | _ => false
  end%char.

Definition all_digits (s : string) : bool := every is_digit s.

End JsString.

(** ** The functions of Node's [path] module the program calls (POSIX)

    [extname] and [basename] follow the right-to-left scans of the library:
    the loop index runs from [path.length - 1] down to [0] and the scan
    variables are the library's. *)

Module Path.

Definition slash : ascii := "/"%char.
Definition dot : ascii := "."%char.

(** The variables of the scan of [extname]. *)
Record ExtScan := {
  startDot : Z;
  startPart : Z;
  ext_end : Z;
  ext_matchedSlash : bool;
  preDotState : Z
}.

(** The body of the loop of [extname] for a character that is not a
    slash, at index [i]. *)
Definition extname_note (i : nat) (code : ascii) (st : ExtScan) : ExtScan :=
  (* the first non-slash character from the right ends the extension *)
  let st :=
    if bool_decide (ext_end st = -1)
    then {| startDot := startDot st; startPart := startPart st;
            ext_end := Z.of_nat i + 1; ext_matchedSlash := false;
            preDotState := preDotState st |}
    else st in
  if bool_decide (code = dot) then
    if bool_decide (startDot st = -1)
    then {| startDot := Z.of_nat i; startPart := startPart st;
            ext_end := ext_end st; ext_matchedSlash := ext_matchedSlash st;
            preDotState := preDotState st |}
    else if negb (bool_decide (preDotState st = 1))
    then {| startDot := startDot st; startPart := startPart st;
            ext_end := ext_end st; ext_matchedSlash := ext_matchedSlash st;
            preDotState := 1 |}
    else st
  else if negb (bool_decide (startDot st = -1))
  then {| startDot := startDot st; startPart := startPart st;
          ext_end := ext_end st; ext_matchedSlash := ext_matchedSlash st;
          preDotState := -1 |}
  else st.

(** The loop of [extname]: [n] is the number of characters still to scan,
    the character looked at is the one at index [n - 1].  A slash met
    after a non-slash character ends the scan. *)
Fixpoint extname_scan (path : string) (n : nat) (st : ExtScan) : ExtScan :=
  match n with
  | O => st
  | S i =>
      match String.get i path with
      | None => st
      | Some code =>
          if bool_decide (code = slash) then
            if negb (ext_matchedSlash st)
            then {| startDot := startDot st; startPart := Z.of_nat i + 1;
                    ext_end := ext_end st;
                    ext_matchedSlash := ext_matchedSlash st;
                    preDotState := preDotState st |}
            else extname_scan path i st
          else extname_scan path i (extname_note i code st)
      end
  end.

Definition extname (path : string) : string :=
  let st := extname_scan path (String.length path)
              {| startDot := -1; startPart := 0; ext_end := -1;
                 ext_matchedSlash := true; preDotState := 0 |} in
  if bool_decide (startDot st = -1) || bool_decide (ext_end st = -1)
     || bool_decide (preDotState st = 0)
     || (bool_decide (preDotState st = 1)
         && bool_decide (startDot st = ext_end st - 1)
         && bool_decide (startDot st = startPart st + 1))
  then ""
  else JsString.slice path (startDot st) (ext_end st).

(** The variables of the scans of [basename]. *)
Record BaseScan := {
  base_start : Z;
  base_end : Z;
  base_matchedSlash : bool;
  extIdx : Z;
  firstNonSlashEnd : Z
}.

(** The body of the loop of [basename(path, suffix)] for a character that
    is not a slash, at index [i]: the suffix is matched from its end. *)
Definition basename_match (suffix : string) (i : nat) (code : ascii)
    (st : BaseScan) : BaseScan :=
  let st :=
    if bool_decide (firstNonSlashEnd st = -1)
    then {| base_start := base_start st; base_end := base_end st;
            base_matchedSlash := false; extIdx := extIdx st;
            firstNonSlashEnd := Z.of_nat i + 1 |}
    else st in
  if bool_decide (0 <= extIdx st) then
    if bool_decide (String.get (Z.to_nat (extIdx st)) suffix = Some code)
    then
      let k := extIdx st - 1 in
      {| base_start := base_start st;
         base_end := if bool_decide (k = -1) then Z.of_nat i
                     else base_end st;
         base_matchedSlash := base_matchedSlash st;
         extIdx := k;
         firstNonSlashEnd := firstNonSlashEnd st |}
    else
      {| base_start := base_start st;
         base_end := firstNonSlashEnd st;
         base_matchedSlash := base_matchedSlash st;
         extIdx := -1;
         firstNonSlashEnd := firstNonSlashEnd st |}
  else st.

(** The loop of [basename(path, suffix)] taken when the suffix is not
    empty and not longer than the path. *)
Fixpoint basename_suffix_scan (path suffix : string) (n : nat)
    (st : BaseScan) : BaseScan :=
  match n with
  | O => st
  | S i =>
      match String.get i path with
      | None => st
      | Some code =>
          if bool_decide (code = slash) then
            if negb (base_matchedSlash st)
            then {| base_start := Z.of_nat i + 1; base_end := base_end st;
                    base_matchedSlash := base_matchedSlash st;
                    extIdx := extIdx st;
                    firstNonSlashEnd := firstNonSlashEnd st |}
            else basename_suffix_scan path suffix i st
          else basename_suffix_scan path suffix i
                 (basename_match suffix i code st)
      end
  end.

(** The body of the loop of [basename(path)] without a usable suffix, for
    a character that is not a slash. *)
Definition basename_mark (i : nat) (st : BaseScan) : BaseScan :=
  if bool_decide (base_end st = -1)
  then {| base_start := base_start st; base_end := Z.of_nat i + 1;
          base_matchedSlash := false; extIdx := extIdx st;
          firstNonSlashEnd := firstNonSlashEnd st |}
  else st.

Fixpoint basename_plain_scan (path : string) (n : nat)
    (st : BaseScan) : BaseScan :=
  match n with
  | O => st
  | S i =>
      match String.get i path with
      | None => st
      | Some code =>
          if bool_decide (code = slash) then
            if negb (base_matchedSlash st)
            then {| base_start := Z.of_nat i + 1; base_end := base_end st;
                    base_matchedSlash := base_matchedSlash st;
                    extIdx := extIdx st;
                    firstNonSlashEnd := firstNonSlashEnd st |}
            else basename_plain_scan path i st
          else basename_plain_scan path i (basename_mark i st)
      end
  end.

Definition basename (path suffix : string) : string :=
  let len := String.length path in
  let slen := String.length suffix in
  if bool_decide (0 < slen)%nat && bool_decide (slen <= len)%nat then
    if bool_decide (suffix = path) then ""
    else
      let st := basename_suffix_scan path suffix len
                  {| base_start := 0; base_end := -1;
                     base_matchedSlash := true;
                     extIdx := Z.of_nat slen - 1;
                     firstNonSlashEnd := -1 |} in
      let e := if bool_decide (base_start st = base_end st)
               then firstNonSlashEnd st
               else if bool_decide (base_end st = -1) then Z.of_nat len
               else base_end st in
      JsString.slice path (base_start st) e
  else
    let st := basename_plain_scan path len
                {| base_start := 0; base_end := -1;
                   base_matchedSlash := true; extIdx := -1;
                   firstNonSlashEnd := -1 |} in
    if bool_decide (base_end st = -1) then ""
    else JsString.slice path (base_start st) (base_end st).

(** Characters that are neither a slash nor a dot, and names made of
    them. *)
Definition is_plain_char (c : ascii) : bool :=
  negb (bool_decide (c = slash)) && negb (bool_decide (c = dot)).

Fixpoint is_plain (s : string) : bool :=
  match s with
  | EmptyString => true
  | String c rest => is_plain_char c && is_plain rest
  end.

(** An extension as [extname] returns it: nothing, or a dot followed by
    plain characters. *)
Definition is_extension (x : string) : bool :=
  match x with
  | EmptyString => true
  | String c rest => bool_decide (c = dot) && is_plain rest
  end.

End Path.

(** ** Plain JavaScript objects used as dictionaries

    [bots] (the result of [JSON.parse]) and [runningProcesses] (the literal
    [{}]) are plain objects: their prototype is [Object.prototype].  The
    [gmap] holds the own properties.  All values stored by the program are
    objects (records, process handles), hence truthy; so are the inherited
    values (functions, and [Object.prototype] itself for [__proto__]). *)

Module JsObject.

(** The property names of [Object.prototype]. *)
Definition object_prototype_keys : list string :=
  [ "constructor"; "__defineGetter__"; "__defineSetter__"; "hasOwnProperty";
    "__lookupGetter__"; "__lookupSetter__"; "isPrototypeOf";
    "propertyIsEnumerable"; "toString"; "valueOf"; "__proto__";
    "toLocaleString" ].

Definition is_prototype_key (k : string) : bool :=
  bool_decide (k ∈ object_prototype_keys).

Inductive property (V : Type) : Type :=
| Own (v : V)      (* an own property: a value stored by the program *)
| Inherited        (* found on [Object.prototype] *)
| Undefined.
Arguments Own {V} v.
Arguments Inherited {V}.
Arguments Undefined {V}.

(** [o[k]]: own properties first, then the prototype. *)
Definition get {V} (o : gmap string V) (k : string) : property V :=
  match o !! k with
  | Some v => Own v
  | None => if is_prototype_key k then Inherited else Undefined
  end.

(** Truthiness of [o[k]]. *)
Definition truthy {V} (p : property V) : bool :=
  match p with
  | Undefined => false
  | _ => true
  end.

(** [o[k] = v].  Assigning to [__proto__] on an object without such an own
    property runs the inherited setter: the prototype of [o] changes and
    no own property appears. *)
Definition set {V} (o : gmap string V) (k : string) (v : V) : gmap string V :=
  match o !! k with
  | None => if bool_decide (k = "__proto__") then o else <[k := v]> o
  | Some _ => <[k := v]> o
  end.

(** [delete o[k]] removes an own property. *)
Definition remove {V} (o : gmap string V) (k : string) : gmap string V :=
  delete k o.

(** [Object.values(o)]; the enumeration order is not modelled. *)
Definition values {V} (o : gmap string V) : list V :=
  (map_to_list o).*2.

(** The [name] of an inherited value, as a template literal prints it:
    [Object] for the constructor, the property name for the other
    functions, nothing for [Object.prototype]. *)
Definition inherited_name (k : string) : string :=
  if bool_decide (k = "constructor") then "Object"
  else if bool_decide (k = "__proto__") then "undefined"
  else k.

End JsObject.

(** ** Data model *)

Module Bot.

(** One entry of [bots.json]. *)
Record t := {
  id : string;
  name : string;
  username : string;
  file_path : string;
  file_type : string;
  status : string;
  created_at : string;
  started_at : option string;
  stopped_at : option string;
  cpu : Z;
  memory : Z
}.

Definition with_status (st : string) (b : t) : t :=
  {| id := id b; name := name b; username := username b;
     file_path := file_path b; file_type := file_type b;
     status := st; created_at := created_at b;
     started_at := started_at b; stopped_at := stopped_at b;
     cpu := cpu b; memory := memory b |}.

Definition with_started_at (ts : string) (b : t) : t :=
  {| id := id b; name := name b; username := username b;
     file_path := file_path b; file_type := file_type b;
     status := status b; created_at := created_at b;
     started_at := Some ts; stopped_at := stopped_at b;
     cpu := cpu b; memory := memory b |}.

Definition with_stopped_at (ts : string) (b : t) : t :=
  {| id := id b; name := name b; username := username b;
     file_path := file_path b; file_type := file_type b;
     status := status b; created_at := created_at b;
     started_at := started_at b; stopped_at := Some ts;
     cpu := cpu b; memory := memory b |}.

End Bot.

(** The handle returned by [spawn(command, args)]. *)
Record ChildProcess := {
  spawn_command : string;
  spawn_args : list string
}.

(** What the service does to processes. *)
Inductive Effect :=
| Spawned (p : ChildProcess)
| Killed (p : ChildProcess).

Record State := {
  bots_db : gmap string Bot.t;                 (* the content of BOTS_DB *)
  runningProcesses : gmap string ChildProcess;
  files : gset string;                         (* uploaded files on disk *)
  effects : list Effect                        (* oldest first *)
}.

Definition BOTS_DIR : string := "./user_bots".

(** The state after the initialisation at the top of [app.js]. *)
Definition init : State :=
  {| bots_db := ∅; runningProcesses := ∅; files := ∅; effects := [] |}.

Definition loadBots (s : State) : gmap string Bot.t := bots_db s.

Definition saveBots (bots : gmap string Bot.t) (s : State) : State :=
  {| bots_db := bots; runningProcesses := runningProcesses s;
     files := files s; effects := effects s |}.

Definition set_runningProcesses (r : gmap string ChildProcess) (s : State)
  : State :=
  {| bots_db := bots_db s; runningProcesses := r;
     files := files s; effects := effects s |}.

Definition emit (e : Effect) (s : State) : State :=
  {| bots_db := bots_db s; runningProcesses := runningProcesses s;
     files := files s; effects := effects s ++ [e] |}.

Definition writeFile (p : string) (s : State) : State :=
  {| bots_db := bots_db s; runningProcesses := runningProcesses s;
     files := {[ p ]} ∪ files s; effects := effects s |}.

Definition unlinkSync (p : string) (s : State) : State :=
  {| bots_db := bots_db s; runningProcesses := runningProcesses s;
     files := files s ∖ {[ p ]}; effects := effects s |}.

(** [fs.existsSync(p)], asked about uploaded files. *)
Definition existsSync (p : string) (s : State) : bool :=
  bool_decide (p ∈ files s).

(** ** Responses *)

Inductive Body :=
| Message (message : string)
| BotId (bot_id : string) (message : string)
| Bots (bots : list Bot.t)
| Logs (logs : string)
| StatusInfo (status : string) (cpu memory : Z).

Inductive Response :=
| Json (code : nat) (success : bool) (body : Body)
| Uncaught (error : string).
    (* an exception raised outside the [try] of the route handler: the
       handler sends nothing *)

Definition NotFound : Response := Json 404 false (Message "Bot not found").
Definition AlreadyRunning : Response :=
  Json 400 false (Message "Bot already running").
Definition NotRunning : Response :=
  Json 400 false (Message "Bot not running").
Definition ValidationError : Response :=
  Json 400 false (Message "Missing required fields").
(** The [catch] of every route handler. *)
Definition ServerError (message : string) : Response :=
  Json 500 false (Message message).
Definition Ok (message : string) : Response :=
  Json 200 true (Message message).

(** ** The routes *)

Section Routes.

(** [path.join] of Node's [path] module, applied to two strings. *)
Variable path_join : string → string → string.

(** *** Upload: the multer disk storage and [POST /api/bot/upload] *)

(** The multipart request as the callbacks see it: the text fields of
    [req.body] and the original name of the part [bot_file], when sent. *)
Record UploadRequest := {
  body_username : option string;
  body_bot_name : option string;
  bot_file : option string
}.

(** [req.file] as multer fills it. *)
Record MulterFile := {
  originalname : string;
  filename : string;
  path : string
}.

(** The [destination] callback.  [path.join] throws a [TypeError] on an
    argument that is not a string (the text of the message is Node's,
    without its quotation marks); the directory it creates is not
    modelled. *)
Definition storage_destination (req : UploadRequest) : string + string :=
  match body_username req with
  | None => inl "The path argument must be of type string. Received undefined"
  | Some username => inr (path_join BOTS_DIR username)
  end.

(** The [filename] callback; [date_now] is the reading of [Date.now()]. *)
Definition storage_filename (req : UploadRequest) (file_originalname : string)
    (date_now : N) : string :=
  let botId :=
    JsString.replace_whitespace_runs
      (JsString.template (body_username req) +:+ "_" +:+
       JsString.template (body_bot_name req) +:+ "_" +:+ pretty date_now) in
  let ext := Path.extname file_originalname in
  botId +:+ ext.

(** [upload.single('bot_file')]: without a file part nothing is stored and
    [req.file] stays undefined; with one, multer asks [destination], then
    [filename], and writes the file at the joined path.

    The callbacks are given the request as the handler will see it, which
    is so when the text fields come before the file part (multer fills
    [req.body] in the order of the parts).  The write is taken to succeed,
    which is so when the stored name holds no slash; a file part with an
    empty name, which multer skips, is not told apart. *)
Definition upload_single (req : UploadRequest) (date_now : N) (s : State)
  : string + (option MulterFile * State) :=
  match bot_file req with
  | None => inr (None, s)
  | Some orig =>
      match storage_destination req with
      | inl err => inl err
      | inr userDir =>
          let fname := storage_filename req orig date_now in
          let p := path_join userDir fname in
          inr (Some {| originalname := orig; filename := fname; path := p |},
               writeFile p s)
      end
  end.

(** The route handler; [now] is [new Date().toISOString()]. *)
Definition upload_handler (req : UploadRequest) (file : option MulterFile)
    (now : string) (s : State) : Response * State :=
  match body_username req, body_bot_name req, file with
  | Some username, Some bot_name, Some file =>
      if bool_decide (username = "") || bool_decide (bot_name = "")
      then (ValidationError, s)
      else
        let botId :=
          Path.basename (filename file) (Path.extname (filename file)) in
        let fileType := JsString.substring1 (Path.extname (filename file)) in
        let bots := loadBots s in
        let bots :=
          JsObject.set bots botId
            {| Bot.id := botId; Bot.name := bot_name;
               Bot.username := username; Bot.file_path := path file;
               Bot.file_type := fileType; Bot.status := "stopped";
               Bot.created_at := now; Bot.started_at := None;
               Bot.stopped_at := None; Bot.cpu := 0; Bot.memory := 0 |} in
        (Json 200 true (BotId botId "Bot uploaded successfully"),
         saveBots bots s)
  | _, _, _ => (ValidationError, s)
  end.

(** The middleware, then the handler.  An exception of a storage callback
    is raised outside every [try]; what becomes of the service after it
    is not modelled, the state is returned as it was. *)
Definition post_upload (req : UploadRequest) (date_now : N) (now : string)
    (s : State) : Response * State :=
  match upload_single req date_now s with
  | inl err => (Uncaught err, s)
  | inr (file, s1) => upload_handler req file now s1
  end.

(** *** [GET /api/bots/:username] *)

Definition liveness (s : State) (botId : string) : string :=
  if JsObject.truthy (JsObject.get (runningProcesses s) botId)
  then "running" else "stopped".

Definition get_bots (username : string) (s : State) : Response * State :=
  let bots := loadBots s in
  let userBots :=
    (λ bot, Bot.with_status (liveness s (Bot.id bot)) bot) <$>
    filter (λ bot, Bot.username bot = username) (JsObject.values bots) in
  (Json 200 true (Bots userBots), s).

(** *** [POST /api/bot/start/:botId] *)

Definition interpreter (file_type : string) : string :=
  if bool_decide (file_type = "py") then "python3" else "node".

Definition post_start (botId now : string) (s : State) : Response * State :=
  let bots := loadBots s in
  match JsObject.get bots botId with
  | JsObject.Undefined => (NotFound, s)
  | found =>
      if JsObject.truthy (JsObject.get (runningProcesses s) botId)
      then (AlreadyRunning, s)
      else
        match found with
        | JsObject.Own bot =>
            let command := interpreter (Bot.file_type bot) in
            let process := {| spawn_command := command;
                              spawn_args := [Bot.file_path bot] |} in
            let s := emit (Spawned process) s in
            let s := set_runningProcesses
                       (JsObject.set (runningProcesses s) botId process) s in
            let bot := Bot.with_started_at now (Bot.with_status "running" bot) in
            (Ok "Bot started successfully", saveBots (<[botId := bot]> bots) s)
        | _ =>
            (* not reached: an inherited [bots[botId]] comes with an
               inherited, truthy [runningProcesses[botId]] *)
            (ServerError "The file argument must be of type string", s)
        end
  end.

(** The [close] observer registered by [post_start]: it captures [botId];
    [code] is the exit code it receives ([null] for a process ended by a
    signal), which it only prints. *)
Definition on_close (botId : string) (code : option Z) (s : State) : State :=
  set_runningProcesses (JsObject.remove (runningProcesses s) botId) s.

(** *** [POST /api/bot/stop/:botId] *)

Definition kill_not_a_function : string :=
  "runningProcesses[botId].kill is not a function".

Definition post_stop (botId now : string) (s : State) : Response * State :=
  let bots := loadBots s in
  match JsObject.get bots botId with
  | JsObject.Undefined => (NotFound, s)
  | found =>
      match JsObject.get (runningProcesses s) botId with
      | JsObject.Undefined => (NotRunning, s)
      | JsObject.Inherited => (ServerError kill_not_a_function, s)
      | JsObject.Own process =>
          let s := emit (Killed process) s in
          let s := set_runningProcesses
                     (JsObject.remove (runningProcesses s) botId) s in
          match found with
          | JsObject.Own bot =>
              let bot :=
                Bot.with_stopped_at now (Bot.with_status "stopped" bot) in
              (Ok "Bot stopped successfully",
               saveBots (<[botId := bot]> bots) s)
          | _ =>
              (* the fields are set on the inherited value, not in [bots] *)
              (Ok "Bot stopped successfully", saveBots bots s)
          end
      end
  end.

(** *** [DELETE /api/bot/delete/:botId] *)

Definition delete_bot (botId : string) (s : State) : Response * State :=
  let bots := loadBots s in
  match JsObject.get bots botId with
  | JsObject.Undefined => (NotFound, s)
  | found =>
      (* Stop if running *)
      let stopped : string + State :=
        match JsObject.get (runningProcesses s) botId with
        | JsObject.Undefined => inr s
        | JsObject.Inherited => inl kill_not_a_function
        | JsObject.Own process =>
            let s := emit (Killed process) s in
            inr (set_runningProcesses
                   (JsObject.remove (runningProcesses s) botId) s)
        end in
      match stopped with
      | inl err => (ServerError err, s)
      | inr s =>
          (* Delete file *)
          let s :=
            match found with
            | JsObject.Own bot =>
                if existsSync (Bot.file_path bot) s
                then unlinkSync (Bot.file_path bot) s else s
            | _ => s   (* [existsSync(undefined)] is false *)
            end in
          (Ok "Bot deleted successfully",
           saveBots (JsObject.remove bots botId) s)
      end
  end.

(** *** [GET /api/bot/logs/:botId] *)

Definition newline : string := String "010"%char EmptyString.

Definition get_logs (botId : string) (s : State) : Response * State :=
  let bots := loadBots s in
  match JsObject.get bots botId with
  | JsObject.Undefined => (NotFound, s)
  | found =>
      let bot_name :=
        match found with
        | JsObject.Own bot => Bot.name bot
        | _ => JsObject.inherited_name botId
        end in
      let bot_created_at :=
        match found with
        | JsObject.Own bot => Bot.created_at bot
        | _ => "undefined"
        end in
      let bot_started_at :=
        match found with
        | JsObject.Own bot => Bot.started_at bot
        | _ => None
        end in
      let logs := "Bot: " +:+ bot_name +:+ newline in
      let logs :=
        logs +:+ "Status: " +:+
        (if JsObject.truthy (JsObject.get (runningProcesses s) botId)
         then "Running" else "Stopped") +:+ newline in
      let logs := logs +:+ "Created: " +:+ bot_created_at +:+ newline in
      let logs :=
        if JsString.falsy bot_started_at then logs
        else logs +:+ "Last started: " +:+
             JsString.template bot_started_at +:+ newline in
      (Json 200 true (Logs logs), s)
  end.

(** *** [GET /api/bot/status/:botId] *)

Definition get_status (botId : string) (s : State) : Response * State :=
  let bots := loadBots s in
  match JsObject.get bots botId with
  | JsObject.Undefined => (NotFound, s)
  | found =>
      let isRunning :=
        JsObject.truthy (JsObject.get (runningProcesses s) botId) in
      let bot_cpu :=
        match found with JsObject.Own bot => Bot.cpu bot | _ => 0 end in
      let bot_memory :=
        match found with JsObject.Own bot => Bot.memory bot | _ => 0 end in
      (Json 200 true
         (StatusInfo (if isRunning then "running" else "stopped")
                     bot_cpu bot_memory), s)
  end.

End Routes.

(** ** Runs of the service

    The states the service can be in: the initial one, and the ones after
    a request was handled or a [close] event was delivered. *)

Inductive reachable (path_join : string → string → string) : State → Prop :=
| reach_init : reachable path_join init
| reach_upload s req date_now now :
    reachable path_join s →
    reachable path_join (post_upload path_join req date_now now s).2
| reach_list s username :
    reachable path_join s → reachable path_join (get_bots username s).2
| reach_start s botId now :
    reachable path_join s → reachable path_join (post_start botId now s).2
| reach_stop s botId now :
    reachable path_join s → reachable path_join (post_stop botId now s).2
| reach_delete s botId :
    reachable path_join s → reachable path_join (delete_bot botId s).2
| reach_logs s botId :
    reachable path_join s → reachable path_join (get_logs botId s).2
| reach_status s botId :
    reachable path_join s → reachable path_join (get_status botId s).2
| reach_close s botId code :
    reachable path_join s → reachable path_join (on_close botId code s).

(** Every registered process belongs to a stored record. *)
Definition registry_within_store (s : State) : Prop :=
  dom (runningProcesses s) ⊆ dom (bots_db s).

(** The process [post_start] spawns for a record, and the record it
    saves. *)
Definition spawned_for (bot : Bot.t) : ChildProcess :=
  {| spawn_command := interpreter (Bot.file_type bot);
     spawn_args := [Bot.file_path bot] |}.

Definition started (now : string) (bot : Bot.t) : Bot.t :=
  Bot.with_started_at now (Bot.with_status "running" bot).

Definition stopped (now : string) (bot : Bot.t) : Bot.t :=
  Bot.with_stopped_at now (Bot.with_status "stopped" bot).

(** A dotted owner name sent with a file that has no extension: the id
    stored for it is the text before the dot. *)
Definition dotted_upload (owner : string) : UploadRequest :=
  {| body_username := Some (owner +:+ ".x");
     body_bot_name := Some "y";
     bot_file := Some "run" |}.

(** The state after one such upload to the fresh service. *)
Definition after_dotted_upload (path_join : string → string → string)
    (owner : string) : State :=
  (post_upload path_join (dotted_upload owner) 1700000000000
     "2023-11-14T22:13:20.000Z" init).2.

(** The list a [GET /api/bots/:username] answers with. *)
Definition listed (username : string) (s : State) : list Bot.t :=
  match (get_bots username s).1 with
  | Json _ _ (Bots l) => l
  | _ => []
  end.

(** The id the specification gives an upload: owner, name and creation
    time joined by underscores, whitespace runs collapsed. *)
Definition spec_bot_id (owner bot_name : string) (date_now : N) : string :=
  JsString.replace_whitespace_runs
    (owner +:+ "_" +:+ bot_name +:+ "_" +:+ pretty date_now).

(** The id the handler recovers from the stored file name. *)
Definition uploaded_id (req : UploadRequest) (orig : string) (date_now : N)
  : string :=
  let fname := storage_filename req orig date_now in
  Path.basename fname (Path.extname fname).

(** A joining function for the worked examples: the two parts with a
    slash between them, without the normalisation [path.join] adds. *)
Definition join_with_slash (a b : string) : string := a +:+ "/" +:+ b.

(** The upload of the specification's round trip, and the service after
    it. *)
Definition alice_upload : UploadRequest :=
  {| body_username := Some "alice"; body_bot_name := Some "echoBot";
     bot_file := Some "bot.py" |}.

Definition alice_id : string := "alice_echoBot_1700000000000".

Definition alice_bot : Bot.t :=
  {| Bot.id := alice_id; Bot.name := "echoBot"; Bot.username := "alice";
     Bot.file_path := "./user_bots/alice/alice_echoBot_1700000000000.py";
     Bot.file_type := "py"; Bot.status := "stopped";
     Bot.created_at := "2023-11-14T22:13:20.000Z";
     Bot.started_at := None; Bot.stopped_at := None;
     Bot.cpu := 0; Bot.memory := 0 |}.

Definition after_alice_upload : State :=
  (post_upload join_with_slash alice_upload 1700000000000
     "2023-11-14T22:13:20.000Z" init).2.

Definition after_alice_start : State :=
  (post_start alice_id "2023-11-14T22:14:00.000Z" after_alice_upload).2.

(** ** Notions for the properties of whole runs *)

(** A response that reports success. *)
Definition succeeded (r : Response) : bool :=
  match r with
  | Json _ true _ => true
  | _ => false
  end.

(** What holds of the record stored under the key [k] in every run: its
    [id] is its key, the resource fields are zero, the status is one of
    the two words, and a record that reads [running] has a start time. *)
Definition record_ok (k : string) (bot : Bot.t) : Prop :=
  Bot.id bot = k ∧ Bot.cpu bot = 0 ∧ Bot.memory bot = 0 ∧
  (Bot.status bot = "running" ∨ Bot.status bot = "stopped") ∧
  (Bot.status bot = "running" → is_Some (Bot.started_at bot)).

Definition records_ok (s : State) : Prop :=
  ∀ k bot, bots_db s !! k = Some bot → record_ok k bot.

(** The processes of a run: a registered handle was spawned, and so was
    every process that was killed. *)
Definition processes_ok (s : State) : Prop :=
  (∀ k p, runningProcesses s !! k = Some p → Spawned p ∈ effects s) ∧
  (∀ p, Killed p ∈ effects s → Spawned p ∈ effects s).

(** The record an upload stores. *)
Definition uploaded_record (path_join : string → string → string)
    (owner bot_name orig : string) (date_now : N) (now : string) : Bot.t :=
  let req := {| body_username := Some owner; body_bot_name := Some bot_name;
                bot_file := Some orig |} in
  let fname := storage_filename req orig date_now in
  {| Bot.id := uploaded_id req orig date_now; Bot.name := bot_name;
     Bot.username := owner;
     Bot.file_path := path_join (path_join BOTS_DIR owner) fname;
     Bot.file_type := JsString.substring1 (Path.extname fname);
     Bot.status := "stopped"; Bot.created_at := now;
     Bot.started_at := None; Bot.stopped_at := None;
     Bot.cpu := 0; Bot.memory := 0 |}.

(** The last character of a string. *)
Fixpoint last_char (s : string) : option ascii :=
  match s with
  | EmptyString => None
  | String c EmptyString => Some c
  | String _ rest => last_char rest
  end.

(** The text the [filename] callback builds before the extension. *)
Definition filename_stem (req : UploadRequest) (date_now : N) : string :=
  JsString.replace_whitespace_runs
    (JsString.template (body_username req) +:+ "_" +:+
     JsString.template (body_bot_name req) +:+ "_" +:+ pretty date_now).

(** What the effect log of a run keeps: a process is killed only after a
    process with the same handle was spawned. *)
Definition kills_follow_spawns (log : list Effect) : Prop :=
  ∀ i p, log !! i = Some (Killed p) →
         ∃ j, (j < i)%nat ∧ log !! j = Some (Spawned p).

(** *** Two uploads as the handler receives them

    [req.file] as multer fills it for the upload [alice_upload] at the
    clock reading 1700000000000, and for an upload of [bob] one minute
    later: [filename] is what the [filename] callback returns, [path] is
    [path.join] of the owner's directory and that name, which Node
    normalises to a path without the leading [./] of [BOTS_DIR]. *)
Definition alice_file : MulterFile :=
  {| originalname := "bot.py";
     filename := "alice_echoBot_1700000000000.py";
     path := "user_bots/alice/alice_echoBot_1700000000000.py" |}.

Definition bob_upload : UploadRequest :=
  {| body_username := Some "bob"; body_bot_name := Some "pinger";
     bot_file := Some "ping.js" |}.

Definition bob_file : MulterFile :=
  {| originalname := "ping.js";
     filename := "bob_pinger_1700000060000.js";
     path := "user_bots/bob/bob_pinger_1700000060000.js" |}.

Definition bob_id : string := "bob_pinger_1700000060000".

(** The service after multer has stored the file of [alice_upload] and the
    handler has run on it. *)
Definition alice_stored : State :=
  (upload_handler alice_upload (Some alice_file) "2023-11-14T22:13:20.000Z"
     (writeFile (path alice_file) init)).2.

(** The service with the bots of [alice] and [bob] stored and started. *)
Definition two_bots_running : State :=
  let s :=
    (upload_handler bob_upload (Some bob_file) "2023-11-14T22:14:20.000Z"
       (writeFile (path bob_file) alice_stored)).2 in
  let s := (post_start alice_id "2023-11-14T22:15:00.000Z" s).2 in
  (post_start bob_id "2023-11-14T22:15:30.000Z" s).2.

(** ** Auxiliary notions for the proofs about the [path] scans *)

Definition plain_between (path : string) (m k : nat) : Prop :=
  ∀ i, (m ≤ i < m + k)%nat →
       ∃ c, String.get i path = Some c ∧ Path.is_plain_char c = true.

(** The state of the scan of [basename] when [j] characters of the suffix
    are still to match. *)
Definition matching (len slen j : nat) : Path.BaseScan :=
  {| Path.base_start := 0; Path.base_end := -1;
     Path.base_matchedSlash := bool_decide (j = slen);
     Path.extIdx := Z.of_nat j - 1;
     Path.firstNonSlashEnd := if bool_decide (j = slen) then -1
                              else Z.of_nat len |}.

Definition matched (R x : string) : Path.BaseScan :=
  {| Path.base_start := 0;
     Path.base_end := Z.of_nat (String.length R);
     Path.base_matchedSlash := false; Path.extIdx := -1;
     Path.firstNonSlashEnd := Z.of_nat (String.length (R +:+ x)) |}.

(** What the scan of [extname] knows when the characters from index [n]
    on are read. *)
Record ext_inv (path : string) (n : nat) (st : Path.ExtScan) : Prop := {
  inv_slash : Path.ext_matchedSlash st = true → Path.ext_end st = -1;
  inv_no_end : Path.ext_end st = -1 → Path.startDot st = -1;
  inv_end : Path.ext_end st ≠ -1 →
            Z.of_nat n ≤ Path.ext_end st ≤ Z.of_nat (String.length path);
  inv_plain : ∀ z, Z.of_nat n ≤ z < Path.ext_end st → Path.startDot st < z →
              ∃ c, String.get (Z.to_nat z) path = Some c ∧
                   Path.is_plain_char c = true;
  inv_dot : Path.startDot st ≠ -1 →
            Z.of_nat n ≤ Path.startDot st < Path.ext_end st ∧
            String.get (Z.to_nat (Path.startDot st)) path = Some Path.dot
}.

Definition ext_post (path : string) (st : Path.ExtScan) : Prop :=
  Path.startDot st ≠ -1 →
  0 ≤ Path.startDot st < Path.ext_end st ∧
  String.get (Z.to_nat (Path.startDot st)) path = Some Path.dot ∧
  ∀ z, Path.startDot st < z < Path.ext_end st →
       ∃ c, String.get (Z.to_nat z) path = Some c ∧
            Path.is_plain_char c = true.

(** ** The [path] functions on the examples of the library's documentation *)

Example extname_examples :
  Path.extname "index.html" = ".html" /\
  Path.extname "index.coffee.md" = ".md" /\
  Path.extname "index." = "." /\
  Path.extname "index" = "" /\
  Path.extname ".index" = "" /\
  Path.extname ".index.md" = ".md" /\
  Path.extname ".." = "" /\
  Path.extname "..." = "." /\
  Path.extname "dir.d/file" = "" /\
  Path.extname "dir/file.txt/" = ".txt".
Proof. vm_compute. repeat split. Qed.

Example basename_examples :
  Path.basename "/foo/bar/baz/asdf/quux.html" "" = "quux.html" /\
  Path.basename "/foo/bar/baz/asdf/quux.html" ".html" = "quux" /\
  Path.basename "quux.HTML" ".html" = "quux.HTML" /\
  Path.basename "dir/sub/" "" = "sub" /\
  Path.basename "dir/.html" ".html" = ".html" /\
  Path.basename "aaa/bbb" "bb" = "b" /\
  Path.basename ".html" ".html" = "".
Proof. vm_compute. repeat split. Qed.

(** ** Lookup lemmas *)

Section JsObjectFacts.
Context {V : Type}.
Implicit Types (o : gmap string V) (k : string) (v : V).

Lemma get_own o k v : o !! k = Some v → JsObject.get o k = JsObject.Own v.
Proof. unfold JsObject.get. by intros ->. Qed.

Lemma get_falsy o k :
  JsObject.truthy (JsObject.get o k) = false →
  o !! k = None ∧ JsObject.is_prototype_key k = false.
Proof.
  unfold JsObject.get.
  destruct (o !! k); [done|].
  by destruct (JsObject.is_prototype_key k).
Qed.

Lemma get_ordinary o k :
  JsObject.is_prototype_key k = false →
  JsObject.get o k =
    match o !! k with
    | Some v => JsObject.Own v
    | None => JsObject.Undefined
    end.
Proof. unfold JsObject.get. by intros ->. Qed.

Lemma get_is_own o k v :
  JsObject.get o k = JsObject.Own v → o !! k = Some v.
Proof.
  unfold JsObject.get. destruct (o !! k); [congruence|].
  by destruct (JsObject.is_prototype_key k).
Qed.

Lemma ordinary_not_proto k :
  JsObject.is_prototype_key k = false → k ≠ "__proto__".
Proof. intros Hk ->. by vm_compute in Hk. Qed.

Lemma set_ordinary o k v :
  JsObject.is_prototype_key k = false → JsObject.set o k v = <[k := v]> o.
Proof.
  intros Hk%ordinary_not_proto. unfold JsObject.set.
  destruct (o !! k); [done|]. by rewrite bool_decide_eq_false_2.
Qed.

Lemma set_dom o k v : dom o ⊆ dom (JsObject.set o k v).
Proof.
  unfold JsObject.set.
  destruct (o !! k); [|case_bool_decide]; rewrite ?dom_insert; set_solver.
Qed.

End JsObjectFacts.

(** ** Start *)

(** What a start does when the record is there and [runningProcesses[botId]]
    is falsy. *)
Lemma post_start_spawns s botId now bot :
  bots_db s !! botId = Some bot →
  JsObject.truthy (JsObject.get (runningProcesses s) botId) = false →
  post_start botId now s =
    (Ok "Bot started successfully",
     {| bots_db := <[botId := started now bot]> (bots_db s);
        runningProcesses := <[botId := spawned_for bot]> (runningProcesses s);
        files := files s;
        effects := effects s ++ [Spawned (spawned_for bot)] |}).
Proof.
  intros Hbot Hreg. unfold post_start, loadBots.
  rewrite (get_own _ _ _ Hbot), Hreg.
  apply get_falsy in Hreg as [_ Hk]. simpl.
  by rewrite (set_ordinary _ _ _ Hk).
Qed.

(** A start answers with success only along that path. *)
Lemma post_start_ok_inv s botId now :
  (post_start botId now s).1 = Ok "Bot started successfully" →
  ∃ bot, bots_db s !! botId = Some bot ∧
         JsObject.truthy (JsObject.get (runningProcesses s) botId) = false.
Proof.
  unfold post_start, loadBots.
  destruct (JsObject.get (bots_db s) botId) as [bot| |] eqn:Hget;
    destruct (JsObject.truthy (JsObject.get (runningProcesses s) botId))
      eqn:Hreg; simpl; try discriminate.
  intros _. exists bot. split; [by apply get_is_own|done].
Qed.

Lemma post_start_already_running s botId now bot p :
  bots_db s !! botId = Some bot →
  runningProcesses s !! botId = Some p →
  post_start botId now s = (AlreadyRunning, s).
Proof.
  intros Hbot Hp. unfold post_start, loadBots.
  by rewrite (get_own _ _ _ Hbot), (get_own _ _ _ Hp).
Qed.

(** The branch of [post_start] for an inherited [bots[botId]] is dead. *)
Lemma post_start_inherited_running s botId :
  JsObject.get (bots_db s) botId = JsObject.Inherited →
  JsObject.truthy (JsObject.get (runningProcesses s) botId) = true.
Proof.
  unfold JsObject.get.
  destruct (bots_db s !! botId); [done|].
  destruct (JsObject.is_prototype_key botId); [|done].
  intros _. by destruct (runningProcesses s !! botId).
Qed.

(** C1: when a spawned process ends, whatever the exit code, the [close]
    observer registered by the start of [botId] removes [botId] from
    [runningProcesses] and changes nothing else: the record store, the
    files and the process effects are those of before.  In particular,
    right after a successful start the stored record still reads
    [running] once the process has exited by itself, while the status
    route already reports [stopped]. *)
Theorem close_prunes_registry_only s botId code :
  runningProcesses (on_close botId code s) !! botId = None ∧
  (∀ other, other ≠ botId →
     runningProcesses (on_close botId code s) !! other
     = runningProcesses s !! other) ∧
  bots_db (on_close botId code s) = bots_db s ∧
  files (on_close botId code s) = files s ∧
  effects (on_close botId code s) = effects s ∧
  (∀ s0 now,
     post_start botId now s0 = (Ok "Bot started successfully", s) →
     ∃ bot,
       bots_db (on_close botId code s) !! botId = Some bot ∧
       Bot.status bot = "running" ∧
       ∃ cpu memory,
         (get_status botId (on_close botId code s)).1
         = Json 200 true (StatusInfo "stopped" cpu memory)).
Proof.
  unfold on_close, JsObject.remove; simpl.
  split; [apply lookup_delete_eq|].
  split; [intros other Hne; by apply lookup_delete_ne|].
  do 3 (split; [done|]).
  intros s0 now Hstart.
  destruct (post_start_ok_inv s0 botId now) as (bot & Hbot & Hreg).
  { by rewrite Hstart. }
  rewrite (post_start_spawns _ _ _ _ Hbot Hreg) in Hstart.
  injection Hstart as <-. simpl.
  exists (started now bot). rewrite lookup_insert_eq.
  do 2 (split; [done|]).
  exists (Bot.cpu bot), (Bot.memory bot).
  unfold get_status, loadBots; simpl.
  rewrite (get_own _ _ (started now bot)) by apply lookup_insert_eq.
  apply get_falsy in Hreg as [_ Hk].
  by rewrite (get_ordinary _ _ Hk), lookup_delete_eq.
Qed.

Lemma close_prunes_registry_only_witness :
  ∃ bot,
    bots_db (on_close alice_id (Some 0) after_alice_start) !! alice_id
      = Some bot ∧
    Bot.status bot = "running" ∧
    ∃ cpu memory,
      (get_status alice_id (on_close alice_id (Some 0) after_alice_start)).1
      = Json 200 true (StatusInfo "stopped" cpu memory).
Proof.
  refine (proj2 (proj2 (proj2 (proj2 (proj2
            (close_prunes_registry_only after_alice_start alice_id (Some 0))))))
            after_alice_upload "2023-11-14T22:14:00.000Z" _).
  vm_compute. reflexivity.
Defined.

(** For an id with a record, a start while [runningProcesses] holds an
    entry for the id answers [AlreadyRunning] and leaves the whole state
    (record store and registry included) as it was; and a start that
    succeeds is followed, when repeated at once, by [AlreadyRunning] with
    the state unchanged.  That the first of two starts succeeds is not
    part of the statement: it depends on the id. *)
Theorem start_twice_already_running s botId now bot :
  bots_db s !! botId = Some bot →
  (∀ p, runningProcesses s !! botId = Some p →
        post_start botId now s = (AlreadyRunning, s)) ∧
  (∀ now',
     (post_start botId now s).1 = Ok "Bot started successfully" →
     post_start botId now' (post_start botId now s).2
     = (AlreadyRunning, (post_start botId now s).2)).
Proof.
  intros Hbot. split.
  - intros p Hp. by eapply post_start_already_running.
  - intros now' Hok.
    destruct (post_start_ok_inv _ _ _ Hok) as (bot' & Hbot' & Hreg).
    rewrite (post_start_spawns _ _ _ _ Hbot' Hreg). simpl.
    eapply post_start_already_running; simpl; apply lookup_insert_eq.
Qed.

Lemma start_twice_already_running_witness :
  post_start alice_id "2023-11-14T22:15:00.000Z" after_alice_start
  = (AlreadyRunning, after_alice_start).
Proof.
  refine (proj2 (start_twice_already_running after_alice_upload alice_id
                   "2023-11-14T22:14:00.000Z" alice_bot _)
            "2023-11-14T22:15:00.000Z" _); vm_compute; reflexivity.
Defined.

(** C7: a start that goes through spawns the interpreter chosen from the
    [file_type] of the record alone: [python3] when it is [py], [node] for
    every other value; the script path is the only argument.  Two records
    with the same [file_type] get the same interpreter, whatever their
    other fields. *)
Theorem start_interpreter_by_file_type s botId now bot :
  bots_db s !! botId = Some bot →
  (post_start botId now s).1 = Ok "Bot started successfully" →
  let command :=
    if decide (Bot.file_type bot = "py") then "python3" else "node" in
  let process := {| spawn_command := command;
                    spawn_args := [Bot.file_path bot] |} in
  runningProcesses (post_start botId now s).2 !! botId = Some process ∧
  effects (post_start botId now s).2 = (effects s ++ [Spawned process])%list ∧
  (∀ s' botId' now' bot' process',
     bots_db s' !! botId' = Some bot' →
     runningProcesses (post_start botId' now' s').2 !! botId' = Some process' →
     (post_start botId' now' s').1 = Ok "Bot started successfully" →
     Bot.file_type bot' = Bot.file_type bot →
     spawn_command process' = command).
Proof.
  intros Hbot Hok command process.
  assert (Hcmd : ∀ b, Bot.file_type b = Bot.file_type bot →
                      spawned_for b
                      = {| spawn_command := command;
                           spawn_args := [Bot.file_path b] |}).
  { intros b Hb. unfold spawned_for, interpreter, command. rewrite Hb.
    by destruct (decide (Bot.file_type bot = "py"));
      [rewrite bool_decide_eq_true_2|rewrite bool_decide_eq_false_2]. }
  destruct (post_start_ok_inv _ _ _ Hok) as (bot0 & Hbot0 & Hreg).
  assert (bot0 = bot) as -> by congruence.
  rewrite (post_start_spawns _ _ _ _ Hbot Hreg); simpl.
  rewrite lookup_insert_eq, (Hcmd bot eq_refl).
  do 2 (split; [done|]).
  intros s' botId' now' bot' process' Hbot' Hp' Hok' Hty.
  destruct (post_start_ok_inv _ _ _ Hok') as (bot1 & Hbot1 & Hreg').
  assert (bot1 = bot') as -> by congruence.
  rewrite (post_start_spawns _ _ _ _ Hbot' Hreg') in Hp'; simpl in Hp'.
  rewrite lookup_insert_eq, (Hcmd bot' Hty) in Hp'.
  by injection Hp' as <-.
Qed.

Lemma start_interpreter_by_file_type_witness :
  runningProcesses after_alice_start !! alice_id
  = Some {| spawn_command := "python3";
            spawn_args := [Bot.file_path alice_bot] |}.
Proof.
  refine (proj1 (start_interpreter_by_file_type after_alice_upload alice_id
                   "2023-11-14T22:14:00.000Z" alice_bot _ _));
    vm_compute; reflexivity.
Defined.

(** ** The registry stays within the record store *)

Section Invariant.
Variable path_join : string → string → string.

Lemma get_undefined_lookup {V} (o : gmap string V) k :
  JsObject.get o k = JsObject.Undefined → o !! k = None.
Proof. unfold JsObject.get. by destruct (o !! k). Qed.

Lemma set_dom_upper {V} (o : gmap string V) k v :
  dom (JsObject.set o k v) ⊆ {[ k ]} ∪ dom o.
Proof.
  unfold JsObject.set.
  destruct (o !! k); [|case_bool_decide]; rewrite ?dom_insert; set_solver.
Qed.

(** Upload leaves the registry alone and removes no record. *)
Lemma post_upload_registry req date_now now s :
  runningProcesses (post_upload path_join req date_now now s).2
  = runningProcesses s ∧
  dom (bots_db s) ⊆ dom (bots_db (post_upload path_join req date_now now s).2).
Proof.
  unfold post_upload, upload_single, upload_handler, loadBots.
  destruct (bot_file req) as [orig|]; simpl.
  - destruct (storage_destination path_join req) as [err|dir]; simpl; [done|].
    destruct (body_username req) as [u|], (body_bot_name req) as [b|];
      simpl; try done.
    destruct (bool_decide (u = "") || bool_decide (b = "")); simpl; [done|].
    split; [done|apply set_dom].
  - by destruct (body_username req), (body_bot_name req).
Qed.

(** Stop and the [close] observer only take entries out of the registry. *)
Lemma post_stop_registry botId now s :
  dom (runningProcesses (post_stop botId now s).2) ⊆ dom (runningProcesses s) ∧
  dom (bots_db s) ⊆ dom (bots_db (post_stop botId now s).2).
Proof.
  unfold post_stop, loadBots, JsObject.remove.
  destruct (JsObject.get (bots_db s) botId) as [bot| |] eqn:Hbot;
    destruct (JsObject.get (runningProcesses s) botId) as [p| |] eqn:Hp;
    simpl; rewrite ?dom_delete, ?dom_insert; set_solver.
Qed.

Lemma on_close_registry botId code s :
  dom (runningProcesses (on_close botId code s)) ⊆ dom (runningProcesses s) ∧
  bots_db (on_close botId code s) = bots_db s.
Proof.
  unfold on_close, JsObject.remove; simpl. rewrite dom_delete. set_solver.
Qed.

(** Start registers an id only when the record is there. *)
Lemma post_start_preserves botId now s :
  registry_within_store s → registry_within_store (post_start botId now s).2.
Proof.
  unfold registry_within_store, post_start, loadBots. intros Hinv.
  destruct (JsObject.get (bots_db s) botId) as [bot| |] eqn:Hbot;
    destruct (JsObject.truthy (JsObject.get (runningProcesses s) botId));
    simpl; try done.
  rewrite dom_insert.
  pose proof (set_dom_upper (runningProcesses s) botId
    {| spawn_command := interpreter (Bot.file_type bot);
       spawn_args := [Bot.file_path bot] |}).
  set_solver.
Qed.

(** Delete takes the id out of the registry before the record goes. *)
Lemma delete_bot_preserves botId s :
  registry_within_store s → registry_within_store (delete_bot botId s).2.
Proof.
  unfold registry_within_store, delete_bot, loadBots, JsObject.remove.
  intros Hinv.
  destruct (JsObject.get (bots_db s) botId) as [bot| |] eqn:Hbot;
    [| |done];
    (destruct (JsObject.get (runningProcesses s) botId) as [p| |] eqn:Hp;
     [| done |]); simpl;
    try (destruct (existsSync _ _)); simpl;
    rewrite ?dom_delete;
    try (apply get_undefined_lookup, not_elem_of_dom in Hp);
    set_solver.
Qed.

Lemma reachable_registry_within_store s :
  reachable path_join s → registry_within_store s.
Proof.
  induction 1 as [|s req d now _ IH|s u _ IH|s b now _ IH|s b now _ IH
                  |s b _ IH|s b _ IH|s b _ IH|s b code _ IH].
  - unfold registry_within_store, init; simpl. set_solver.
  - unfold registry_within_store in *.
    destruct (post_upload_registry req d now s) as [-> Hdom]. set_solver.
  - done.
  - by apply post_start_preserves.
  - unfold registry_within_store in *.
    destruct (post_stop_registry b now s). set_solver.
  - by apply delete_bot_preserves.
  - unfold get_logs, loadBots. by destruct (JsObject.get _ _).
  - unfold get_status, loadBots. by destruct (JsObject.get _ _).
  - unfold registry_within_store in *.
    destruct (on_close_registry b code s) as [? ->]. set_solver.
Qed.

End Invariant.

(** C10: in every state the service reaches (between requests and [close]
    events, handled one at a time), each id of [runningProcesses] has a
    record in the store: the key set of the registry is a subset of the
    key set of the store, and every id with a process handle has a
    record. *)
Theorem registry_subset_of_store path_join s :
  reachable path_join s →
  dom (runningProcesses s) ⊆ dom (bots_db s) ∧
  (∀ botId p, runningProcesses s !! botId = Some p →
              ∃ bot, bots_db s !! botId = Some bot).
Proof.
  intros Hs%reachable_registry_within_store. split; [done|].
  intros botId p Hp.
  assert (botId ∈ dom (bots_db s)) as Hin.
  { apply Hs, elem_of_dom. by exists p. }
  by apply elem_of_dom in Hin.
Qed.

Lemma registry_subset_of_store_witness :
  dom (runningProcesses after_alice_start) ⊆ dom (bots_db after_alice_start).
Proof.
  refine (proj1 (registry_subset_of_store join_with_slash after_alice_start _)).
  unfold after_alice_start, after_alice_upload.
  apply reach_start, reach_upload, reach_init.
Defined.

(** ** Unknown ids *)

(** An id that is not a property name of [Object.prototype] and has no
    record is answered with [NotFound] by the five routes.  The registry
    plays no part. *)
Lemma unknown_ordinary_id_not_found s botId now :
  bots_db s !! botId = None →
  JsObject.is_prototype_key botId = false →
  post_start botId now s = (NotFound, s) ∧
  post_stop botId now s = (NotFound, s) ∧
  delete_bot botId s = (NotFound, s) ∧
  get_status botId s = (NotFound, s) ∧
  get_logs botId s = (NotFound, s).
Proof.
  intros Hnone Hk.
  unfold post_start, post_stop, delete_bot, get_status, get_logs, loadBots.
  by rewrite (get_ordinary _ _ Hk), Hnone.
Qed.

(** C4 (the code departs from it): [constructor] names no record of the
    fresh service, yet no route answers [NotFound] for it.  The lookups
    [bots[botId]] and [runningProcesses[botId]] find the function every
    object inherits: start answers [AlreadyRunning], stop and delete fail
    with the server error of calling [kill] on it, status and logs answer
    with success. *)
Theorem unknown_id_constructor_not_rejected :
  bots_db init !! "constructor" = None ∧
  runningProcesses init !! "constructor" = None ∧
  post_start "constructor" "2023-11-14T22:13:20.000Z" init
    = (AlreadyRunning, init) ∧
  post_stop "constructor" "2023-11-14T22:13:20.000Z" init
    = (ServerError kill_not_a_function, init) ∧
  delete_bot "constructor" init = (ServerError kill_not_a_function, init) ∧
  get_status "constructor" init
    = (Json 200 true (StatusInfo "running" 0 0), init) ∧
  (get_logs "constructor" init).1
    = Json 200 true
        (Logs ("Bot: Object" +:+ newline +:+ "Status: Running" +:+ newline
               +:+ "Created: undefined" +:+ newline)).
Proof. repeat split. Qed.

(** ** Stop *)

Lemma post_stop_not_running s botId now bot :
  bots_db s !! botId = Some bot →
  runningProcesses s !! botId = None →
  JsObject.is_prototype_key botId = false →
  post_stop botId now s = (NotRunning, s).
Proof.
  intros Hbot Hreg Hk. unfold post_stop, loadBots.
  by rewrite (get_own _ _ _ Hbot), (get_ordinary _ _ Hk), Hreg.
Qed.

Lemma post_stop_running s botId now bot p :
  bots_db s !! botId = Some bot →
  runningProcesses s !! botId = Some p →
  post_stop botId now s =
    (Ok "Bot stopped successfully",
     {| bots_db := <[botId := stopped now bot]> (bots_db s);
        runningProcesses := delete botId (runningProcesses s);
        files := files s;
        effects := effects s ++ [Killed p] |}).
Proof.
  intros Hbot Hp. unfold post_stop, loadBots.
  by rewrite (get_own _ _ _ Hbot), (get_own _ _ _ Hp).
Qed.

(** In a reachable state a registry entry is enough for stop to succeed. *)
Lemma post_stop_registered path_join s botId now p :
  reachable path_join s →
  runningProcesses s !! botId = Some p →
  ∃ bot, bots_db s !! botId = Some bot ∧
    post_stop botId now s =
      (Ok "Bot stopped successfully",
       {| bots_db := <[botId := stopped now bot]> (bots_db s);
          runningProcesses := delete botId (runningProcesses s);
          files := files s;
          effects := effects s ++ [Killed p] |}).
Proof.
  intros Hs%reachable_registry_within_store Hp.
  assert (botId ∈ dom (bots_db s)) as [bot Hbot]%elem_of_dom.
  { apply Hs, elem_of_dom. by exists p. }
  exists bot. split; [done|]. by apply post_stop_running.
Qed.

(** For an ordinary id the liveness shown by the listing, the status and
    the logs is the presence of the id in the registry. *)
Lemma liveness_ordinary s botId :
  JsObject.is_prototype_key botId = false →
  liveness s botId =
    if decide (is_Some (runningProcesses s !! botId))
    then "running" else "stopped".
Proof.
  intros Hk. unfold liveness. rewrite (get_ordinary _ _ Hk).
  destruct (decide (is_Some (runningProcesses s !! botId))) as [[p Hp]|Hn].
  - by rewrite Hp.
  - destruct (runningProcesses s !! botId) as [p|]; [|done].
    destruct Hn. eauto.
Qed.

(** The record an upload of [dotted_upload owner] stores. *)
Lemma after_dotted_upload_constructor path_join :
  ∃ bot,
    bots_db (after_dotted_upload path_join "constructor") !! "constructor"
      = Some bot ∧
    Bot.status bot = "stopped" ∧
    runningProcesses (after_dotted_upload path_join "constructor") = ∅ ∧
    reachable path_join (after_dotted_upload path_join "constructor").
Proof.
  eexists. split; [vm_compute; reflexivity|].
  split; [reflexivity|]. split; [reflexivity|].
  apply reach_upload, reach_init.
Qed.

(** C2 (the code departs from it): the bot with the id [constructor] has
    a record, was never started and has no registry entry, yet the first
    start of it does not succeed: [runningProcesses[botId]] is the
    function inherited from [Object.prototype], which is truthy, so the
    first call already answers [AlreadyRunning]; nothing is spawned and
    the state stays as it was. *)
Theorem first_start_of_constructor_already_running path_join now :
  let s := after_dotted_upload path_join "constructor" in
  is_Some (bots_db s !! "constructor") ∧
  runningProcesses s !! "constructor" = None ∧
  effects s = [] ∧
  post_start "constructor" now s = (AlreadyRunning, s) ∧
  (post_start "constructor" now s).1 ≠ Ok "Bot started successfully".
Proof.
  intros s.
  destruct (after_dotted_upload_constructor path_join)
    as (bot & Hbot & _ & Hreg & _).
  fold s in Hbot, Hreg.
  assert (Hstart : post_start "constructor" now s = (AlreadyRunning, s)).
  { unfold post_start, loadBots.
    rewrite (get_own _ _ _ Hbot), Hreg. reflexivity. }
  split; [by exists bot|]. split; [by rewrite Hreg|].
  split; [reflexivity|]. split; [done|]. by rewrite Hstart.
Qed.

(** C3 (the code departs from it): a bot whose record has the id
    [constructor] -- stored by an upload with owner [constructor.x], name
    [y] and a file without extension -- was never started and has no
    registry entry, yet stopping it does not answer [NotRunning]:
    [runningProcesses[botId]] is the inherited function, [kill] is not a
    function of it, and the route answers with a server error. *)
Theorem stop_never_started_constructor path_join now :
  let s := after_dotted_upload path_join "constructor" in
  is_Some (bots_db s !! "constructor") ∧
  runningProcesses s !! "constructor" = None ∧
  post_stop "constructor" now s = (ServerError kill_not_a_function, s) ∧
  (post_stop "constructor" now s).1 ≠ NotRunning.
Proof.
  intros s.
  destruct (after_dotted_upload_constructor path_join)
    as (bot & Hbot & _ & Hreg & _).
  fold s in Hbot, Hreg.
  assert (Hstop : post_stop "constructor" now s
                  = (ServerError kill_not_a_function, s)).
  { unfold post_stop, loadBots.
    rewrite (get_own _ _ _ Hbot), Hreg. reflexivity. }
  split; [by exists bot|]. split; [by rewrite Hreg|].
  split; [done|]. by rewrite Hstop.
Qed.

(** ** Delete *)

Lemma delete_bot_ordinary s botId bot :
  bots_db s !! botId = Some bot →
  JsObject.is_prototype_key botId = false →
  delete_bot botId s =
    (Ok "Bot deleted successfully",
     {| bots_db := delete botId (bots_db s);
        runningProcesses := delete botId (runningProcesses s);
        files := files s ∖ {[ Bot.file_path bot ]};
        effects := effects s ++
                   match runningProcesses s !! botId with
                   | Some p => [Killed p]
                   | None => []
                   end |}).
Proof.
  intros Hbot Hk. unfold delete_bot, loadBots, JsObject.remove.
  rewrite (get_own _ _ _ Hbot), (get_ordinary _ _ Hk).
  destruct (runningProcesses s !! botId) as [p|] eqn:Hp;
    unfold existsSync, unlinkSync, saveBots, set_runningProcesses, emit;
    simpl; rewrite ?app_nil_r, ?(delete_id _ _ Hp);
    case_bool_decide; simpl; do 2 f_equal; set_solver.
Qed.

(** After a delete of an ordinary id, the id is unknown to every route. *)
Lemma delete_bot_then_not_found s botId bot now :
  bots_db s !! botId = Some bot →
  JsObject.is_prototype_key botId = false →
  let s' := (delete_bot botId s).2 in
  (Bot.file_path bot ∉ files s') ∧
  runningProcesses s' !! botId = None ∧
  bots_db s' !! botId = None ∧
  post_start botId now s' = (NotFound, s') ∧
  post_stop botId now s' = (NotFound, s') ∧
  get_status botId s' = (NotFound, s') ∧
  get_logs botId s' = (NotFound, s').
Proof.
  intros Hbot Hk s'. unfold s'.
  rewrite (delete_bot_ordinary _ _ _ Hbot Hk). simpl.
  split; [set_solver|].
  split; [apply lookup_delete_eq|]. split; [apply lookup_delete_eq|].
  match goal with |- context [post_start _ _ ?st] =>
    destruct (unknown_ordinary_id_not_found st botId now) as (?&?&?&?&?)
  end; [apply lookup_delete_eq|done|done].
Qed.

(** C5 (the code departs from it): the bot with the id [constructor] has
    a record and no process, yet deleting it does not succeed: the check
    [runningProcesses[botId]] sees the inherited function, the call of
    [kill] on it throws, and the route answers with a server error; the
    record and the file stay. *)
Theorem delete_constructor_fails path_join :
  let s := after_dotted_upload path_join "constructor" in
  is_Some (bots_db s !! "constructor") ∧
  runningProcesses s !! "constructor" = None ∧
  delete_bot "constructor" s = (ServerError kill_not_a_function, s).
Proof.
  intros s.
  destruct (after_dotted_upload_constructor path_join)
    as (bot & Hbot & _ & Hreg & _).
  fold s in Hbot, Hreg.
  split; [by exists bot|]. split; [by rewrite Hreg|].
  unfold delete_bot, loadBots.
  rewrite (get_own _ _ _ Hbot), Hreg. reflexivity.
Qed.

(** ** The [path] scans on plain names *)

Section PathFacts.

Lemma get_lt s i : (i < String.length s)%nat → ∃ c, String.get i s = Some c.
Proof.
  revert i. induction s as [|a s IH]; intros [|i] Hi; simpl in *;
    try lia; eauto with lia.
Qed.

Lemma get_app_l a b i :
  (i < String.length a)%nat → String.get i (a +:+ b) = String.get i a.
Proof. intros Hi. symmetry. by apply append_correct1. Qed.

Lemma get_app_r a b i :
  String.get (String.length a + i) (a +:+ b) = String.get i b.
Proof. rewrite Nat.add_comm. symmetry. apply append_correct2. Qed.

Lemma length_app a b :
  String.length (a +:+ b) = (String.length a + String.length b)%nat.
Proof. induction a as [|c a IH]; simpl; [done|by rewrite IH]. Qed.

Lemma substring_all s : String.substring 0 (String.length s) s = s.
Proof. induction s as [|c s IH]; simpl; [done|by rewrite IH]. Qed.

Lemma substring_prefix a b :
  String.substring 0 (String.length a) (a +:+ b) = a.
Proof.
  induction a as [|c a IH]; simpl; [by destruct b|by rewrite IH].
Qed.

Lemma substring_suffix a b :
  String.substring (String.length a) (String.length b) (a +:+ b) = b.
Proof. induction a as [|c a IH]; simpl; [apply substring_all|done]. Qed.

Lemma is_plain_char_spec c :
  Path.is_plain_char c = true ↔ c ≠ Path.slash ∧ c ≠ Path.dot.
Proof.
  unfold Path.is_plain_char.
  rewrite andb_true_iff, !negb_true_iff, !bool_decide_eq_false. tauto.
Qed.

Lemma get_plain s i c :
  Path.is_plain s = true → String.get i s = Some c →
  Path.is_plain_char c = true.
Proof.
  revert i. induction s as [|a s IH]; intros i; simpl; [done|].
  intros [Ha Hs]%andb_true_iff. destruct i as [|i]; [congruence|eauto].
Qed.

Lemma is_plain_app a b :
  Path.is_plain (a +:+ b) = Path.is_plain a && Path.is_plain b.
Proof.
  induction a as [|c a IH]; simpl; [done|]. by rewrite IH, andb_assoc.
Qed.

(** A plain character before any dot was seen: only the end of the scanned
    part is noted. *)
Lemma extname_note_plain_no_dot i c st :
  Path.is_plain_char c = true → Path.startDot st = -1 →
  Path.extname_note i c st =
    if bool_decide (Path.ext_end st = -1)
    then {| Path.startDot := -1; Path.startPart := Path.startPart st;
            Path.ext_end := Z.of_nat i + 1; Path.ext_matchedSlash := false;
            Path.preDotState := Path.preDotState st |}
    else st.
Proof.
  intros [_ Hdot]%is_plain_char_spec Hsd. unfold Path.extname_note.
  rewrite (bool_decide_eq_false_2 _ Hdot).
  destruct (bool_decide (Path.ext_end st = -1)); simpl;
    rewrite ?Hsd; by rewrite bool_decide_eq_true_2.
Qed.

(** A plain character left of the dot. *)
Lemma extname_note_plain_dot_seen i c st :
  Path.is_plain_char c = true →
  Path.startDot st ≠ -1 → Path.ext_end st ≠ -1 →
  Path.extname_note i c st =
    {| Path.startDot := Path.startDot st; Path.startPart := Path.startPart st;
       Path.ext_end := Path.ext_end st;
       Path.ext_matchedSlash := Path.ext_matchedSlash st;
       Path.preDotState := -1 |}.
Proof.
  intros [_ Hdot]%is_plain_char_spec Hsd Hend. unfold Path.extname_note.
  by rewrite (bool_decide_eq_false_2 _ Hend), (bool_decide_eq_false_2 _ Hdot),
    (bool_decide_eq_false_2 _ Hsd).
Qed.

Lemma plain_between_S path m k :
  plain_between path m (S k) →
  plain_between path m k ∧
  ∃ c, String.get (m + k) path = Some c ∧ Path.is_plain_char c = true.
Proof.
  intros H. split; [intros i Hi; apply H; lia|apply H; lia].
Qed.

Lemma extname_scan_plain_no_dot path m k st :
  plain_between path m k →
  Path.startDot st = -1 →
  Path.extname_scan path (m + k) st =
  Path.extname_scan path m
    (if bool_decide (k = 0%nat) then st
     else if bool_decide (Path.ext_end st = -1)
     then {| Path.startDot := -1; Path.startPart := Path.startPart st;
             Path.ext_end := Z.of_nat (m + k);
             Path.ext_matchedSlash := false;
             Path.preDotState := Path.preDotState st |}
     else st).
Proof.
  revert st. induction k as [|k IH]; intros st Hplain Hsd.
  { by rewrite Nat.add_0_r. }
  apply plain_between_S in Hplain as [Hplain (c & Hget & Hc)].
  rewrite Nat.add_succ_r. cbn [Path.extname_scan]. rewrite Hget.
  pose proof Hc as [Hslash _]%is_plain_char_spec.
  rewrite (bool_decide_eq_false_2 _ Hslash).
  rewrite (extname_note_plain_no_dot _ _ _ Hc Hsd).
  rewrite (bool_decide_eq_false_2 (S k = 0%nat)) by lia.
  destruct (decide (Path.ext_end st = -1)) as [Hend|Hend].
  - rewrite !(bool_decide_eq_true_2 _ Hend).
    rewrite IH by done. clear IH. simpl.
    rewrite (bool_decide_eq_false_2 (Z.of_nat (m + k) + 1 = -1)) by lia.
    replace (Z.of_nat (m + k) + 1) with (Z.of_nat (S (m + k))) by lia.
    by case_bool_decide.
  - rewrite !(bool_decide_eq_false_2 _ Hend).
    rewrite IH by done. clear IH.
    rewrite (bool_decide_eq_false_2 _ Hend). by case_bool_decide.
Qed.

Lemma extname_scan_plain_dot_seen path m k st :
  plain_between path m k →
  Path.startDot st ≠ -1 → Path.ext_end st ≠ -1 →
  Path.extname_scan path (m + k) st =
  Path.extname_scan path m
    (if bool_decide (k = 0%nat) then st
     else {| Path.startDot := Path.startDot st;
             Path.startPart := Path.startPart st;
             Path.ext_end := Path.ext_end st;
             Path.ext_matchedSlash := Path.ext_matchedSlash st;
             Path.preDotState := -1 |}).
Proof.
  revert st. induction k as [|k IH]; intros st Hplain Hsd Hend.
  { by rewrite Nat.add_0_r. }
  apply plain_between_S in Hplain as [Hplain (c & Hget & Hc)].
  rewrite Nat.add_succ_r. cbn [Path.extname_scan]. rewrite Hget.
  pose proof Hc as [Hslash _]%is_plain_char_spec.
  rewrite (bool_decide_eq_false_2 _ Hslash).
  rewrite (extname_note_plain_dot_seen _ _ _ Hc Hsd Hend).
  rewrite IH by done. clear IH.
  rewrite (bool_decide_eq_false_2 (S k = 0%nat)) by lia.
  by case_bool_decide.
Qed.

Lemma app_empty_r a : a +:+ "" = a.
Proof. induction a as [|c a IH]; [done|]. exact (f_equal (String c) IH). Qed.

Lemma plain_between_prefix R x :
  Path.is_plain R = true → plain_between (R +:+ x) 0 (String.length R).
Proof.
  intros HR i Hi. destruct (get_lt R i) as [c Hc]; [lia|].
  exists c. rewrite get_app_l by lia. eauto using get_plain.
Qed.

Lemma plain_between_suffix R c e :
  Path.is_plain e = true →
  plain_between (R +:+ String c e) (S (String.length R)) (String.length e).
Proof.
  intros He i Hi.
  destruct (get_lt e (i - S (String.length R))) as [d Hd]; [lia|].
  exists d. split; [|eauto using get_plain].
  replace i with (String.length R + S (i - S (String.length R)))%nat by lia.
  by rewrite get_app_r.
Qed.

Lemma extname_scan_step path i c st :
  String.get i path = Some c → c ≠ Path.slash →
  Path.extname_scan path (S i) st
  = Path.extname_scan path i (Path.extname_note i c st).
Proof.
  intros Hget Hc. cbn [Path.extname_scan].
  by rewrite Hget, (bool_decide_eq_false_2 _ Hc).
Qed.

(** The first dot met by the scan. *)
Lemma extname_note_first_dot i st :
  Path.startDot st = -1 →
  Path.extname_note i Path.dot st =
    {| Path.startDot := Z.of_nat i; Path.startPart := Path.startPart st;
       Path.ext_end := if bool_decide (Path.ext_end st = -1)
                       then Z.of_nat i + 1 else Path.ext_end st;
       Path.ext_matchedSlash := if bool_decide (Path.ext_end st = -1)
                                then false else Path.ext_matchedSlash st;
       Path.preDotState := Path.preDotState st |}.
Proof.
  intros Hsd. unfold Path.extname_note.
  rewrite (bool_decide_eq_true_2 (Path.dot = Path.dot)) by done.
  destruct (bool_decide (Path.ext_end st = -1)); simpl;
    by rewrite Hsd, bool_decide_eq_true_2.
Qed.

(** The scan of [extname] over a plain name followed by a dot and a plain
    extension body. *)
Lemma extname_scan_plain_ext R e :
  Path.is_plain R = true → R ≠ "" → Path.is_plain e = true →
  Path.extname_scan (R +:+ String Path.dot e)
    (String.length (R +:+ String Path.dot e))
    {| Path.startDot := -1; Path.startPart := 0; Path.ext_end := -1;
       Path.ext_matchedSlash := true; Path.preDotState := 0 |}
  = {| Path.startDot := Z.of_nat (String.length R); Path.startPart := 0;
       Path.ext_end := Z.of_nat (String.length (R +:+ String Path.dot e));
       Path.ext_matchedSlash := false; Path.preDotState := -1 |}.
Proof.
  intros HR Hne He.
  assert (0 < String.length R)%nat as HlenR by (destruct R; simpl; [done|lia]).
  rewrite length_app. simpl String.length.
  replace (String.length R + S (String.length e))%nat
    with (S (String.length R) + String.length e)%nat by lia.
  rewrite (extname_scan_plain_no_dot _ _ _ _ (plain_between_suffix R _ e He))
    by done.
  match goal with |- Path.extname_scan _ _ ?st = _ => set (stA := st) end.
  assert (Path.startDot stA = -1) as HsdA
    by (unfold stA; by repeat case_bool_decide).
  rewrite (extname_scan_step _ _ Path.dot); [|
    replace (String.length R) with (String.length R + 0)%nat at 1 by lia;
    by rewrite get_app_r | done].
  rewrite (extname_note_first_dot _ _ HsdA).
  replace (String.length R) with (0 + String.length R)%nat at 1 by lia.
  rewrite (extname_scan_plain_dot_seen _ _ _ _ (plain_between_prefix R _ HR));
    [|simpl; lia|unfold stA; simpl; repeat case_bool_decide; simpl in *; lia].
  rewrite (bool_decide_eq_false_2 (String.length R = 0%nat)) by lia.
  simpl. unfold stA. f_equal; repeat case_bool_decide; simpl in *; lia || done.
Qed.

Lemma is_extension_inv x :
  Path.is_extension x = true →
  x = "" ∨ ∃ e, x = String Path.dot e ∧ Path.is_plain e = true.
Proof.
  destruct x as [|c e]; simpl; [by left|].
  intros [->%bool_decide_eq_true He]%andb_true_iff. right. eauto.
Qed.

(** [extname] gives back the extension appended to a plain name. *)
Lemma extname_plain R x :
  Path.is_plain R = true → R ≠ "" → Path.is_extension x = true →
  Path.extname (R +:+ x) = x.
Proof.
  intros HR Hne [->|(e & -> & He)]%is_extension_inv; unfold Path.extname.
  - rewrite app_empty_r.
    replace (String.length R) with (0 + String.length R)%nat by lia.
    pose proof (plain_between_prefix R "" HR) as Hpl.
    rewrite app_empty_r in Hpl.
    rewrite (extname_scan_plain_no_dot _ _ _ _ Hpl) by done.
    cbn [Path.extname_scan].
    by repeat case_bool_decide.
  - rewrite (extname_scan_plain_ext R e HR Hne He). simpl.
    rewrite !bool_decide_eq_false_2 by lia. simpl.
    unfold JsString.slice. rewrite Nat2Z.id.
    rewrite length_app. simpl String.length.
    replace (Z.to_nat _) with (String.length (String Path.dot e))
      by (simpl; lia).
    apply substring_suffix.
Qed.

(** *** [basename] *)

Lemma basename_suffix_scan_step path suffix i c st :
  String.get i path = Some c → c ≠ Path.slash →
  Path.basename_suffix_scan path suffix (S i) st
  = Path.basename_suffix_scan path suffix i
      (Path.basename_match suffix i c st).
Proof.
  intros Hget Hc. cbn [Path.basename_suffix_scan].
  by rewrite Hget, (bool_decide_eq_false_2 _ Hc).
Qed.

(** Once the suffix is matched, characters that are not slashes change
    nothing. *)
Lemma basename_suffix_scan_idle path suffix k st :
  plain_between path 0 k →
  Path.extIdx st < 0 → Path.firstNonSlashEnd st ≠ -1 →
  Path.basename_suffix_scan path suffix k st = st.
Proof.
  induction k as [|k IH]; intros Hplain Hidx Hfirst; [done|].
  apply (plain_between_S path 0) in Hplain as [Hplain (c & Hget & Hc)].
  simpl in Hget. apply is_plain_char_spec in Hc as [Hslash _].
  rewrite (basename_suffix_scan_step _ _ _ _ _ Hget Hslash).
  unfold Path.basename_match.
  rewrite (bool_decide_eq_false_2 _ Hfirst).
  rewrite (bool_decide_eq_false_2 (0 <= Path.extIdx st)) by lia.
  by apply IH.
Qed.

(** A character that matches the suffix at position [j]. *)
Lemma basename_match_hit suffix i c st j :
  Path.extIdx st = Z.of_nat j → String.get j suffix = Some c →
  Path.basename_match suffix i c st =
    {| Path.base_start := Path.base_start st;
       Path.base_end := if bool_decide (j = 0%nat) then Z.of_nat i
                        else Path.base_end st;
       Path.base_matchedSlash :=
         if bool_decide (Path.firstNonSlashEnd st = -1) then false
         else Path.base_matchedSlash st;
       Path.extIdx := Z.of_nat j - 1;
       Path.firstNonSlashEnd :=
         if bool_decide (Path.firstNonSlashEnd st = -1) then Z.of_nat i + 1
         else Path.firstNonSlashEnd st |}.
Proof.
  intros Hidx Hget. unfold Path.basename_match.
  destruct (bool_decide (Path.firstNonSlashEnd st = -1)); simpl;
    rewrite Hidx, Nat2Z.id, Hget;
    rewrite (bool_decide_eq_true_2 (0 <= Z.of_nat j)) by lia;
    rewrite (bool_decide_eq_true_2 (Some c = Some c)) by done;
    f_equal; repeat case_bool_decide; lia || done.
Qed.

Lemma basename_suffix_scan_match_step R x j c :
  String.get j x = Some c → c ≠ Path.slash →
  (S j ≤ String.length x)%nat →
  Path.basename_suffix_scan (R +:+ x) x (String.length R + S j)
    (matching (String.length (R +:+ x)) (String.length x) (S j))
  = Path.basename_suffix_scan (R +:+ x) x (String.length R + j)
      (if bool_decide (j = 0%nat) then matched R x
       else matching (String.length (R +:+ x)) (String.length x) j).
Proof.
  intros Hc Hslash Hj. rewrite Nat.add_succ_r.
  rewrite (basename_suffix_scan_step _ _ _ c);
    [|by rewrite get_app_r|done].
  rewrite (basename_match_hit _ _ c _ j) by (done || simpl; lia).
  f_equal. unfold matching, matched. simpl. rewrite length_app.
  repeat case_bool_decide; f_equal; lia || done.
Qed.

Lemma basename_suffix_scan_match R x j :
  (∀ t c, String.get t x = Some c → c ≠ Path.slash) →
  (S j ≤ String.length x)%nat →
  Path.basename_suffix_scan (R +:+ x) x (String.length R + S j)
    (matching (String.length (R +:+ x)) (String.length x) (S j))
  = Path.basename_suffix_scan (R +:+ x) x (String.length R) (matched R x).
Proof.
  intros Hx. induction j as [|j IH]; intros Hj.
  - destruct (get_lt x 0) as [c Hc]; [lia|].
    rewrite (basename_suffix_scan_match_step R x 0 c) by eauto.
    by rewrite Nat.add_0_r.
  - destruct (get_lt x (S j)) as [c Hc]; [lia|].
    rewrite (basename_suffix_scan_match_step R x (S j) c) by eauto.
    rewrite bool_decide_eq_false_2 by lia. apply IH. lia.
Qed.

Lemma basename_plain_scan_step path i c st :
  String.get i path = Some c → c ≠ Path.slash →
  Path.basename_plain_scan path (S i) st
  = Path.basename_plain_scan path i (Path.basename_mark i st).
Proof.
  intros Hget Hc. cbn [Path.basename_plain_scan].
  by rewrite Hget, (bool_decide_eq_false_2 _ Hc).
Qed.

Lemma basename_plain_scan_idle path k st :
  plain_between path 0 k → Path.base_end st ≠ -1 →
  Path.basename_plain_scan path k st = st.
Proof.
  induction k as [|k IH]; intros Hplain Hend; [done|].
  apply (plain_between_S path 0) in Hplain as [Hplain (c & Hget & Hc)].
  simpl in Hget. apply is_plain_char_spec in Hc as [Hslash _].
  rewrite (basename_plain_scan_step _ _ _ _ Hget Hslash).
  unfold Path.basename_mark. rewrite (bool_decide_eq_false_2 _ Hend).
  by apply IH.
Qed.

Lemma extension_no_slash x t c :
  Path.is_extension x = true → String.get t x = Some c → c ≠ Path.slash.
Proof.
  intros [->|(e & -> & He)]%is_extension_inv; [done|].
  destruct t as [|t]; simpl; [by intros [= <-]|].
  intros Hc. by apply (get_plain _ _ _ He), is_plain_char_spec in Hc as [? _].
Qed.

Lemma basename_suffix_scan_plain R x :
  Path.is_plain R = true → Path.is_extension x = true → x ≠ "" →
  Path.basename_suffix_scan (R +:+ x) x (String.length (R +:+ x))
    {| Path.base_start := 0; Path.base_end := -1;
       Path.base_matchedSlash := true;
       Path.extIdx := Z.of_nat (String.length x) - 1;
       Path.firstNonSlashEnd := -1 |}
  = matched R x.
Proof.
  intros HR Hx Hne.
  destruct (String.length x) as [|j] eqn:Hlenx; [by destruct x|].
  assert (Hinit :
    {| Path.base_start := 0; Path.base_end := -1;
       Path.base_matchedSlash := true;
       Path.extIdx := Z.of_nat (S j) - 1;
       Path.firstNonSlashEnd := -1 |}
    = matching (String.length (R +:+ x)) (String.length x) (S j)).
  { unfold matching. by rewrite !bool_decide_eq_true_2 by done. }
  rewrite Hinit, (length_app R x) at 1. rewrite Hlenx at 1.
  rewrite basename_suffix_scan_match;
    [|intros t c; by apply extension_no_slash|lia].
  apply basename_suffix_scan_idle;
    [by apply plain_between_prefix|simpl; lia|simpl; lia].
Qed.

(** [basename] cuts the extension off again. *)
Lemma basename_plain R x :
  Path.is_plain R = true → R ≠ "" → Path.is_extension x = true →
  Path.basename (R +:+ x) x = R.
Proof.
  intros HR Hne Hx.
  assert (0 < String.length R)%nat as HlenR by (destruct R; simpl; [done|lia]).
  unfold Path.basename.
  destruct (decide (x = "")) as [->|Hxne].
  - rewrite app_empty_r. simpl.
    destruct (String.length R) as [|k] eqn:Hlen; [lia|].
    pose proof (plain_between_prefix R "" HR) as Hpl.
    rewrite app_empty_r, Hlen in Hpl.
    apply (plain_between_S R 0) in Hpl as [Hpl (c & Hget & Hc)].
    simpl in Hget. apply is_plain_char_spec in Hc as [Hslash _].
    rewrite (basename_plain_scan_step _ _ _ _ Hget Hslash).
    unfold Path.basename_mark. simpl.
    rewrite basename_plain_scan_idle by (done || simpl; lia). simpl.
    rewrite bool_decide_eq_false_2 by lia.
    unfold JsString.slice. change (Z.to_nat 0) with 0%nat.
    replace (Z.to_nat _) with (String.length R) by lia.
    apply substring_all.
  - assert (0 < String.length x)%nat as Hlenx
      by (destruct x; simpl; [done|lia]).
    rewrite (bool_decide_eq_true_2 (0 < String.length x)%nat) by lia.
    rewrite (bool_decide_eq_true_2
               (String.length x ≤ String.length (R +:+ x))%nat)
      by (rewrite length_app; lia).
    rewrite (bool_decide_eq_false_2 (x = R +:+ x)).
    2: { intros Heq%(f_equal String.length). rewrite length_app in Heq. lia. }
    simpl andb. cbv iota.
    rewrite (basename_suffix_scan_plain R x HR Hx Hxne).
    simpl. rewrite !bool_decide_eq_false_2 by lia.
    unfold JsString.slice. change (Z.to_nat 0) with 0%nat.
    replace (Z.to_nat _) with (String.length R) by lia.
    apply substring_prefix.
Qed.

(** *** [extname] always returns an extension *)

Lemma ext_inv_post path n st : ext_inv path n st → ext_post path st.
Proof.
  intros [H1 H2 H3 H4 H5] Hsd. destruct (H5 Hsd) as [Hrange Hdot].
  split; [lia|]. split; [done|].
  intros z Hz. apply H4; lia.
Qed.

Lemma get_Some_lt s i c : String.get i s = Some c → (i < String.length s)%nat.
Proof.
  revert i. induction s as [|a s IH]; intros [|i]; simpl; try done; [lia|].
  intros H%IH. lia.
Qed.

Lemma ext_inv_note path i c st :
  String.get i path = Some c → c ≠ Path.slash →
  ext_inv path (S i) st → ext_inv path i (Path.extname_note i c st).
Proof.
  intros Hget Hslash [H1 H2 H3 H4 H5].
  pose proof (get_Some_lt _ _ _ Hget) as Hlt.
  assert (Hplain : c ≠ Path.dot → Path.is_plain_char c = true).
  { intros. by apply is_plain_char_spec. }
  unfold Path.extname_note.
  destruct (decide (Path.ext_end st = -1)) as [Hend|Hend].
  - rewrite (bool_decide_eq_true_2 _ Hend). simpl. rewrite (H2 Hend).
    rewrite (bool_decide_eq_true_2 (-1 = -1)) by done. simpl.
    destruct (decide (c = Path.dot)) as [->|Hdot].
    + rewrite bool_decide_eq_true_2 by done.
      split; simpl; try (done || lia).
      intros _. split; [lia|]. by rewrite Nat2Z.id.
    + rewrite (bool_decide_eq_false_2 _ Hdot).
      split; simpl; try (done || lia).
      intros z Hz _. replace (Z.to_nat z) with i by lia. eauto.
  - rewrite (bool_decide_eq_false_2 _ Hend).
    specialize (H3 Hend).
    assert (Hkeep : ∀ z, Z.of_nat i ≤ z < Path.ext_end st →
              Path.startDot st < z → c ≠ Path.dot ∨ z ≠ Z.of_nat i →
              ∃ c0, String.get (Z.to_nat z) path = Some c0 ∧
                    Path.is_plain_char c0 = true).
    { intros z Hz Hsd Hc. destruct (decide (z = Z.of_nat i)) as [->|Hz'].
      - rewrite Nat2Z.id. destruct Hc as [Hc|Hc]; [eauto|done].
      - apply H4; lia. }
    destruct (decide (c = Path.dot)) as [->|Hdot].
    + rewrite bool_decide_eq_true_2 by done.
      destruct (decide (Path.startDot st = -1)) as [Hsd|Hsd].
      * rewrite (bool_decide_eq_true_2 _ Hsd).
        split; simpl; try (done || lia).
        -- intros z Hz Hsd'. apply Hkeep; [lia|lia|right; lia].
        -- intros _. split; [lia|]. by rewrite Nat2Z.id.
      * rewrite (bool_decide_eq_false_2 _ Hsd).
        destruct (H5 Hsd) as [Hrange Hd].
        destruct (negb _); split; simpl; try (done || lia).
        all: try (intros z Hz Hsd'; apply Hkeep; [lia|lia|right; lia]).
        all: intros _; split; [lia|done].
    + rewrite (bool_decide_eq_false_2 _ Hdot).
      destruct (negb _) eqn:Hneg; split; simpl; try (done || lia).
      all: try (intros z Hz Hsd'; apply Hkeep; [lia|lia|by left]).
      all: intros Hsd; destruct (H5 Hsd) as [Hrange Hd]; split; [lia|done].
Qed.

Lemma extname_scan_post path n st :
  ext_inv path n st → ext_post path (Path.extname_scan path n st).
Proof.
  revert st. induction n as [|i IH]; intros st Hinv; simpl.
  { by eapply ext_inv_post. }
  destruct (String.get i path) as [c|] eqn:Hget; [|by eapply ext_inv_post].
  case_bool_decide as Hslash.
  - destruct (Path.ext_matchedSlash st) eqn:Hm; simpl.
    + apply IH. destruct Hinv as [H1 H2 H3 H4 H5].
      pose proof (H1 Hm) as Hend. pose proof (H2 Hend) as Hsd.
      split; try (done || lia); intros z Hz; lia.
    + apply ext_inv_post in Hinv. exact Hinv.
  - by apply IH, ext_inv_note.
Qed.

Lemma substring_plain s a k :
  (∀ i, (a ≤ i < a + k)%nat →
        ∃ c, String.get i s = Some c ∧ Path.is_plain_char c = true) →
  Path.is_plain (String.substring a k s) = true.
Proof.
  revert a k. induction s as [|c s IH]; intros a k Hall.
  { by destruct a, k. }
  destruct a as [|a]; simpl.
  - destruct k as [|k]; [done|]. simpl.
    destruct (Hall 0%nat) as (c0 & [= <-] & ->); [lia|]. simpl.
    apply IH. intros i Hi. destruct (Hall (S i)) as (c1 & Hc1 & ?); [lia|].
    eauto.
  - apply IH. intros i Hi. destruct (Hall (S i)) as (c1 & Hc1 & ?); [lia|].
    eauto.
Qed.

Lemma substring_extension s a k :
  String.get a s = Some Path.dot →
  (∀ i, (a < i < a + S k)%nat →
        ∃ c, String.get i s = Some c ∧ Path.is_plain_char c = true) →
  Path.is_extension (String.substring a (S k) s) = true.
Proof.
  revert a. induction s as [|c s IH]; intros a Hdot Hall; [by destruct a|].
  destruct a as [|a].
  - simpl in *. injection Hdot as ->.
    rewrite bool_decide_eq_true_2 by done. simpl.
    apply substring_plain. intros i Hi.
    destruct (Hall (S i)) as (c1 & Hc1 & ?); [lia|]. eauto.
  - simpl in *. apply IH; [done|]. intros i Hi.
    destruct (Hall (S i)) as (c1 & Hc1 & ?); [lia|]. eauto.
Qed.

Lemma extname_is_extension path :
  Path.is_extension (Path.extname path) = true.
Proof.
  unfold Path.extname.
  match goal with |- context [Path.extname_scan ?p ?n ?st0] =>
    assert (Hpost : ext_post p (Path.extname_scan p n st0));
    [|set (st := Path.extname_scan p n st0) in *]
  end.
  { apply extname_scan_post. split; simpl; try (done || lia). }
  destruct (bool_decide (Path.startDot st = -1)) eqn:Hsd; [done|].
  apply bool_decide_eq_false in Hsd.
  destruct (_ || _); [done|].
  destruct (Hpost Hsd) as (Hrange & Hdot & Hplain).
  unfold JsString.slice.
  replace (Z.to_nat (Path.ext_end st - Path.startDot st))
    with (S (Z.to_nat (Path.ext_end st - Path.startDot st - 1))) by lia.
  apply substring_extension; [done|].
  intros i Hi. destruct (Hplain (Z.of_nat i)) as (c & Hc & ?); [lia|].
  rewrite Nat2Z.id in Hc. eauto.
Qed.

End PathFacts.

(** ** Upload *)

Section Upload.
Variable path_join : string → string → string.

(** A request with a missing or empty field never changes the store. *)
Lemma post_upload_incomplete_store req date_now now s :
  JsString.falsy (body_username req) || JsString.falsy (body_bot_name req)
    || bool_decide (bot_file req = None) = true →
  bots_db (post_upload path_join req date_now now s).2 = bots_db s.
Proof.
  unfold post_upload, upload_single, upload_handler, storage_destination.
  destruct req as [[u|] [b|] [f|]]; simpl; try done.
  intros Hmiss. by rewrite orb_false_r in Hmiss; rewrite Hmiss.
Qed.

(** It is answered with [ValidationError] when the file is absent, or the
    owner is present (possibly empty). *)
Lemma post_upload_incomplete_400 req date_now now s :
  JsString.falsy (body_username req) || JsString.falsy (body_bot_name req)
    || bool_decide (bot_file req = None) = true →
  bot_file req = None ∨ is_Some (body_username req) →
  (post_upload path_join req date_now now s).1 = ValidationError.
Proof.
  unfold post_upload, upload_single, upload_handler, storage_destination.
  destruct req as [[u|] [b|] [f|]]; simpl; try done.
  - intros Hmiss _. by rewrite orb_false_r in Hmiss; rewrite Hmiss.
  - intros _ [[=]|[? [=]]].
  - intros _ [[=]|[? [=]]].
Qed.

(** A complete request is answered with the recovered id, and the record
    is stored under it unless the id is [__proto__]. *)
Lemma post_upload_complete u b orig date_now now s :
  u ≠ "" → b ≠ "" →
  let req := {| body_username := Some u; body_bot_name := Some b;
                bot_file := Some orig |} in
  let botId := uploaded_id req orig date_now in
  let s' := (post_upload path_join req date_now now s).2 in
  (post_upload path_join req date_now now s).1
    = Json 200 true (BotId botId "Bot uploaded successfully") ∧
  runningProcesses s' = runningProcesses s ∧
  (botId ≠ "__proto__" →
   ∃ bot,
     bots_db s' !! botId = Some bot ∧
     Bot.id bot = botId ∧ Bot.name bot = b ∧ Bot.username bot = u ∧
     Bot.status bot = "stopped" ∧ Bot.created_at bot = now ∧
     Bot.started_at bot = None ∧ Bot.cpu bot = 0 ∧ Bot.memory bot = 0 ∧
     Bot.with_status (liveness s' botId) bot ∈ listed u s').
Proof.
  intros Hu Hb req botId s'.
  unfold s', post_upload, upload_single, upload_handler, storage_destination,
    loadBots; simpl.
  rewrite (bool_decide_eq_false_2 _ Hu), (bool_decide_eq_false_2 _ Hb); simpl.
  fold (uploaded_id req orig date_now). fold botId.
  do 2 (split; [done|]).
  intros Hid. eexists. split.
  { unfold JsObject.set. simpl.
    destruct (bots_db s !! botId);
      rewrite ?(bool_decide_eq_false_2 _ Hid); apply lookup_insert_eq. }
  repeat (split; [done|]).
  unfold listed, get_bots, loadBots; simpl.
  match goal with |- context [JsObject.set _ _ ?r] => set (bot := r) end.
  apply (list_elem_of_fmap_2'
           (λ bot0, Bot.with_status (liveness _ (Bot.id bot0)) bot0) _ bot);
    [|done].
  apply list_elem_of_filter. split; [done|].
  unfold JsObject.values.
  apply (list_elem_of_fmap_2' snd _ (botId, bot)); [|done].
  apply elem_of_map_to_list.
  unfold JsObject.set.
  destruct (bots_db s !! botId);
    rewrite ?(bool_decide_eq_false_2 _ Hid); apply lookup_insert_eq.
Qed.

End Upload.

(** ** The id of an upload with plain names *)

Section UploadId.

Lemma every_app P a b :
  JsString.every P (a +:+ b) = JsString.every P a && JsString.every P b.
Proof.
  induction a as [|c a IH]; [done|].
  change (P c && JsString.every P (a +:+ b)
          = P c && JsString.every P a && JsString.every P b).
  by rewrite IH, andb_assoc.
Qed.

Lemma is_plain_every s :
  Path.is_plain s = JsString.every Path.is_plain_char s.
Proof. induction s as [|c s IH]; simpl; [done|by rewrite IH]. Qed.

Lemma every_replace_ws P in_run s :
  P "_"%char = true → JsString.every P s = true →
  JsString.every P (JsString.replace_ws_go in_run s) = true.
Proof.
  intros Hus. revert in_run. induction s as [|c s IH]; intros in_run; [done|].
  simpl. intros [Hc Hs]%andb_true_iff.
  destruct (JsString.is_whitespace c), in_run; simpl;
    rewrite ?Hus, ?Hc; simpl; by apply IH.
Qed.

(** The result of the replacement holds no whitespace. *)
Lemma replace_ws_no_whitespace in_run s :
  JsString.every (λ c, negb (JsString.is_whitespace c))
    (JsString.replace_ws_go in_run s) = true.
Proof.
  revert in_run. induction s as [|c s IH]; intros in_run; [done|].
  simpl. destruct (JsString.is_whitespace c) eqn:Hc, in_run; simpl;
    rewrite ?Hc; simpl; by apply IH.
Qed.

(** Without whitespace the replacement changes nothing. *)
Lemma replace_ws_id in_run s :
  JsString.every (λ c, negb (JsString.is_whitespace c)) s = true →
  JsString.replace_ws_go in_run s = s.
Proof.
  revert in_run. induction s as [|c s IH]; intros in_run; [done|].
  simpl. intros [Hc Hs]%andb_true_iff.
  apply negb_true_iff in Hc. rewrite Hc. f_equal. auto.
Qed.

Lemma replace_ws_nonempty s :
  s ≠ "" → JsString.replace_whitespace_runs s ≠ "".
Proof.
  destruct s as [|c s]; [done|]. intros _.
  unfold JsString.replace_whitespace_runs. simpl.
  by destruct (JsString.is_whitespace c).
Qed.

Lemma every_pretty_N_go P x s :
  (∀ d, P (pretty_N_char d) = true) → JsString.every P s = true →
  JsString.every P (pretty_N_go x s) = true.
Proof.
  intros HP. revert s. induction (N.lt_wf_0 x) as [x _ IH]; intros s Hs.
  destruct (decide (x = 0%N)) as [->|Hx]; [by rewrite pretty_N_go_0|].
  rewrite pretty_N_go_step by lia.
  apply IH; [apply N.div_lt; lia|]. simpl. by rewrite HP, Hs.
Qed.

(** The decimal text of a clock reading: [P] holds of its characters when
    it holds of the ten digits. *)
Lemma every_pretty_N P (x : N) :
  (∀ d, P (pretty_N_char d) = true) → JsString.every P (pretty x) = true.
Proof.
  intros HP. unfold pretty, pretty_N.
  case_decide; [|by apply every_pretty_N_go].
  pose proof (HP 0%N) as H0. simpl in *. by rewrite H0.
Qed.

Lemma pretty_N_char_digit d : JsString.is_digit (pretty_N_char d) = true.
Proof. unfold pretty_N_char. by repeat case_match. Qed.

Lemma pretty_N_char_plain d : Path.is_plain_char (pretty_N_char d) = true.
Proof. unfold pretty_N_char. by repeat case_match. Qed.

Lemma pretty_N_char_no_whitespace d :
  negb (JsString.is_whitespace (pretty_N_char d)) = true.
Proof. unfold pretty_N_char. by repeat case_match. Qed.

(** The id of the specification never holds whitespace. *)
Lemma spec_bot_id_no_whitespace owner bot_name date_now :
  JsString.has_whitespace (spec_bot_id owner bot_name date_now) = false.
Proof.
  unfold JsString.has_whitespace, spec_bot_id, JsString.replace_whitespace_runs.
  by rewrite replace_ws_no_whitespace.
Qed.

Lemma spec_bot_id_plain owner bot_name date_now :
  Path.is_plain owner = true → Path.is_plain bot_name = true →
  Path.is_plain (spec_bot_id owner bot_name date_now) = true ∧
  spec_bot_id owner bot_name date_now ≠ "".
Proof.
  intros Ho Hb. split.
  - rewrite is_plain_every in *. unfold spec_bot_id.
    apply every_replace_ws; [done|].
    rewrite !every_app, Ho, Hb. simpl.
    apply (every_pretty_N _ _ pretty_N_char_plain).
  - apply replace_ws_nonempty. by destruct owner.
Qed.

(** With an owner and a bot name free of dots and slashes, the id the
    handler recovers from the stored file name is the id of the
    specification, whatever the name of the uploaded file. *)
Lemma uploaded_id_plain owner bot_name orig date_now :
  Path.is_plain owner = true → Path.is_plain bot_name = true →
  uploaded_id {| body_username := Some owner;
                 body_bot_name := Some bot_name;
                 bot_file := Some orig |} orig date_now
  = spec_bot_id owner bot_name date_now.
Proof.
  intros Ho Hb.
  destruct (spec_bot_id_plain owner bot_name date_now Ho Hb) as [HR Hne].
  unfold uploaded_id, storage_filename. simpl JsString.template.
  fold (spec_bot_id owner bot_name date_now).
  pose proof (extname_is_extension orig) as Hext.
  by rewrite (extname_plain _ _ HR Hne Hext), (basename_plain _ _ HR Hne Hext).
Qed.

(** The round trip of the specification: owner [alice], name [echoBot],
    any file name and any clock reading. *)
Lemma upload_alice_round_trip path_join orig date_now now s :
  (post_upload path_join
     {| body_username := Some "alice"; body_bot_name := Some "echoBot";
        bot_file := Some orig |} date_now now s).1
  = Json 200 true
      (BotId ("alice_echoBot_" +:+ pretty date_now)
             "Bot uploaded successfully") ∧
  JsString.all_digits (pretty date_now) = true ∧
  JsString.has_whitespace ("alice_echoBot_" +:+ pretty date_now) = false.
Proof.
  assert (Hid : spec_bot_id "alice" "echoBot" date_now
                = "alice_echoBot_" +:+ pretty date_now).
  { unfold spec_bot_id, JsString.replace_whitespace_runs.
    apply replace_ws_id. simpl.
    apply (every_pretty_N _ _ pretty_N_char_no_whitespace). }
  split; [|split].
  - destruct (post_upload_complete path_join "alice" "echoBot" orig
                date_now now s) as [-> _]; [done..|].
    by rewrite uploaded_id_plain, Hid.
  - apply (every_pretty_N _ _ pretty_N_char_digit).
  - rewrite <- Hid. apply spec_bot_id_no_whitespace.
Qed.

End UploadId.

(** C6 (the code departs from it): an upload that carries a file and a
    bot name but no owner is not answered with the [ValidationError] of
    the handler: the [destination] callback of the disk storage runs
    before the handler, joins the upload directory with the missing owner,
    and the exception escapes.  No record is created. *)
Theorem upload_without_owner_uncaught path_join bot_name orig date_now now s :
  let req := {| body_username := None; body_bot_name := Some bot_name;
                bot_file := Some orig |} in
  post_upload path_join req date_now now s
    = (Uncaught "The path argument must be of type string. Received undefined",
       s) ∧
  (post_upload path_join req date_now now s).1 ≠ ValidationError.
Proof. by split. Qed.

(** C8 (the code departs from it): the upload with owner [__proto__.x],
    name [y] and a file without extension is answered with success and the
    id [__proto__], yet no record exists afterwards: the assignment
    [bots[botId] = ...] sets the prototype of [bots] instead of a
    property, and nothing is saved; the listing of the owner is empty.
    And the bot uploaded under the id [constructor] is listed as
    [running] although the registry is empty: the listing reads the
    inherited [runningProcesses[bot.id]]. *)
Theorem upload_proto_id_stores_nothing path_join :
  (post_upload path_join (dotted_upload "__proto__") 1700000000000
     "2023-11-14T22:13:20.000Z" init).1
    = Json 200 true (BotId "__proto__" "Bot uploaded successfully") ∧
  bots_db (after_dotted_upload path_join "__proto__") = ∅ ∧
  listed "__proto__.x" (after_dotted_upload path_join "__proto__") = [] ∧
  runningProcesses (after_dotted_upload path_join "constructor") = ∅ ∧
  Bot.status <$> listed "constructor.x"
                   (after_dotted_upload path_join "constructor")
    = ["running"].
Proof. repeat split. Qed.

(** C9 (the code departs from it): the upload with owner [john.x], name
    [y] and a file without extension gets the id [john], not
    [john.x_y_1700000000000]: the handler recovers the id by cutting the
    extension off the stored file name, and with no extension on the file
    the cut is made at the dot of the owner. *)
Theorem upload_dotted_owner_cuts_id path_join now s :
  (post_upload path_join (dotted_upload "john") 1700000000000 now s).1
    = Json 200 true (BotId "john" "Bot uploaded successfully") ∧
  spec_bot_id "john.x" "y" 1700000000000 = "john.x_y_1700000000000" ∧
  uploaded_id (dotted_upload "john") "run" 1700000000000
    ≠ spec_bot_id "john.x" "y" 1700000000000.
Proof. repeat split. vm_compute. discriminate. Qed.

(** * Further properties of the routes *)

(** ** The shape of every lifecycle step *)

Section Steps.

Lemma lookup_set {V} (o : gmap string V) k v k' :
  JsObject.set o k v !! k' = o !! k' ∨
  (k' = k ∧ JsObject.set o k v !! k' = Some v).
Proof.
  unfold JsObject.set.
  destruct (o !! k) eqn:Hk; [|case_bool_decide; [by left|]];
    (destruct (decide (k' = k)) as [->|Hne];
     [right; by rewrite lookup_insert_eq
     |left; by rewrite lookup_insert_ne]).
Qed.

(** A start either changes nothing or goes the whole way. *)
Lemma post_start_cases s botId now :
  (succeeded (post_start botId now s).1 = false ∧
   (post_start botId now s).2 = s) ∨
  (∃ bot, bots_db s !! botId = Some bot ∧
          runningProcesses s !! botId = None ∧
          JsObject.is_prototype_key botId = false ∧
          post_start botId now s =
            (Ok "Bot started successfully",
             {| bots_db := <[botId := started now bot]> (bots_db s);
                runningProcesses :=
                  <[botId := spawned_for bot]> (runningProcesses s);
                files := files s;
                effects := effects s ++ [Spawned (spawned_for bot)] |})).
Proof.
  destruct (JsObject.get (bots_db s) botId) as [bot| |] eqn:Hbot;
    destruct (JsObject.truthy (JsObject.get (runningProcesses s) botId))
      eqn:Hreg;
    try (left; unfold post_start, loadBots; by rewrite Hbot, ?Hreg).
  right. exists bot. apply get_is_own in Hbot.
  destruct (get_falsy _ _ Hreg) as [Hnone Hk].
  repeat (split; [done|]). by apply post_start_spawns.
Qed.

(** A stop either changes nothing or kills the registered process. *)
Lemma post_stop_cases s botId now :
  (succeeded (post_stop botId now s).1 = false ∧
   (post_stop botId now s).2 = s) ∨
  (∃ p, runningProcesses s !! botId = Some p ∧
        post_stop botId now s =
          (Ok "Bot stopped successfully",
           {| bots_db := match bots_db s !! botId with
                         | Some bot => <[botId := stopped now bot]> (bots_db s)
                         | None => bots_db s
                         end;
              runningProcesses := delete botId (runningProcesses s);
              files := files s;
              effects := effects s ++ [Killed p] |})).
Proof.
  unfold post_stop, loadBots, JsObject.remove.
  destruct (JsObject.get (bots_db s) botId) as [bot| |] eqn:Hbot;
    destruct (JsObject.get (runningProcesses s) botId) as [p| |] eqn:Hp;
    try (by left).
  - right. exists p. apply get_is_own in Hbot, Hp. by rewrite Hbot.
  - right. exists p. apply get_is_own in Hp. split; [done|].
    assert (bots_db s !! botId = None) as ->; [|done].
    unfold JsObject.get in Hbot. by destruct (bots_db s !! botId).
Qed.

(** A delete either changes nothing or removes the record, the registry
    entry and the file. *)
Lemma delete_bot_cases s botId :
  (succeeded (delete_bot botId s).1 = false ∧ (delete_bot botId s).2 = s) ∨
  (delete_bot botId s =
     (Ok "Bot deleted successfully",
      {| bots_db := delete botId (bots_db s);
         runningProcesses := delete botId (runningProcesses s);
         files := match bots_db s !! botId with
                  | Some bot => files s ∖ {[ Bot.file_path bot ]}
                  | None => files s
                  end;
         effects := effects s ++
                    match runningProcesses s !! botId with
                    | Some p => [Killed p]
                    | None => []
                    end |})).
Proof.
  unfold delete_bot, loadBots, JsObject.remove.
  destruct (JsObject.get (bots_db s) botId) as [bot| |] eqn:Hbot;
    [| |by left];
    (destruct (JsObject.get (runningProcesses s) botId) as [p| |] eqn:Hp;
     [|by left|]); right.
  - apply get_is_own in Hbot, Hp. rewrite Hbot, Hp.
    unfold existsSync, unlinkSync, saveBots, set_runningProcesses, emit;
      simpl. case_bool_decide; simpl; do 2 f_equal; set_solver.
  - apply get_is_own in Hbot. apply get_undefined_lookup in Hp.
    rewrite Hbot, Hp.
    unfold existsSync, unlinkSync, saveBots, set_runningProcesses, emit;
      simpl. rewrite app_nil_r, (delete_id _ _ Hp).
    case_bool_decide; simpl; do 2 f_equal; set_solver.
  - apply get_is_own in Hp. rewrite Hp.
    assert (bots_db s !! botId = None) as Hnone.
    { unfold JsObject.get in Hbot. by destruct (bots_db s !! botId). }
    rewrite Hnone.
    unfold saveBots, set_runningProcesses, emit; simpl.
    by rewrite (delete_id _ _ Hnone).
  - apply get_undefined_lookup in Hp. rewrite Hp.
    assert (bots_db s !! botId = None) as Hnone.
    { unfold JsObject.get in Hbot. by destruct (bots_db s !! botId). }
    rewrite Hnone.
    unfold saveBots; simpl.
    by rewrite app_nil_r, (delete_id _ _ Hnone), (delete_id _ _ Hp);
      destruct s.
Qed.

End Steps.

(** ** Listing *)

(** X1: the listing of an owner answers with success, changes nothing,
    and holds the stored records whose [username] is the owner: one
    entry for each key of the store that holds such a record and no
    other entry, each with its [status] replaced by the liveness of its
    [id] and every other field as stored. *)
Theorem listing_is_owner_records username s :
  ∃ entries : list (string * Bot.t),
    NoDup entries.*1 ∧
    (∀ k bot, (k, bot) ∈ entries ↔
              bots_db s !! k = Some bot ∧ Bot.username bot = username) ∧
    get_bots username s =
      (Json 200 true
         (Bots ((λ kb, Bot.with_status (liveness s (Bot.id kb.2)) kb.2)
                <$> entries)), s).
Proof.
  exists (filter (λ kb, Bot.username kb.2 = username)
            (map_to_list (bots_db s))).
  split; [|split].
  - apply (sublist_NoDup _ (map_to_list (bots_db s)).*1);
      [apply NoDup_fst_map_to_list|apply fmap_sublist, sublist_filter].
  - intros k bot. rewrite list_elem_of_filter, elem_of_map_to_list.
    simpl. tauto.
  - unfold get_bots, loadBots, JsObject.values. do 3 f_equal.
    induction (map_to_list (bots_db s)) as [|[k bot] l IH]; [done|].
    rewrite fmap_cons, !filter_cons. simpl.
    destruct (decide (Bot.username bot = username)); by rewrite ?fmap_cons, IH.
Qed.

(** ** Requests that fail *)

(** X2: a start answered [NotFound] or [AlreadyRunning], a stop answered
    [NotFound] or [NotRunning] and a delete answered [NotFound] have
    changed nothing: records, registry, files and processes are as they
    were.  (These answers are given by the guards at the head of each
    handler, before anything is written.) *)
Theorem refused_lifecycle_request_changes_nothing s botId now :
  ((post_start botId now s).1 = NotFound ∨
   (post_start botId now s).1 = AlreadyRunning →
   (post_start botId now s).2 = s) ∧
  ((post_stop botId now s).1 = NotFound ∨
   (post_stop botId now s).1 = NotRunning →
   (post_stop botId now s).2 = s) ∧
  ((delete_bot botId s).1 = NotFound → (delete_bot botId s).2 = s).
Proof.
  split; [|split]; intros Hfail.
  - destruct (post_start_cases s botId now) as [[_ ?]|(bot & _ & _ & _ & Heq)];
      [done|]. rewrite Heq in Hfail. by destruct Hfail.
  - destruct (post_stop_cases s botId now) as [[_ ?]|(p & _ & Heq)];
      [done|]. rewrite Heq in Hfail. by destruct Hfail.
  - destruct (delete_bot_cases s botId) as [[_ ?]|Heq]; [done|].
    by rewrite Heq in Hfail.
Qed.

Lemma refused_lifecycle_request_changes_nothing_witness :
  (post_start alice_id "2023-11-14T22:16:00.000Z" two_bots_running).1
    = AlreadyRunning ∧
  (post_start alice_id "2023-11-14T22:16:00.000Z" two_bots_running).2
    = two_bots_running.
Proof.
  assert (H : (post_start alice_id "2023-11-14T22:16:00.000Z"
                 two_bots_running).1 = AlreadyRunning)
    by (vm_compute; reflexivity).
  split; [exact H|].
  exact (proj1 (refused_lifecycle_request_changes_nothing two_bots_running
                  alice_id "2023-11-14T22:16:00.000Z") (or_intror H)).
Defined.

(** ** One bot at a time *)

(** X3: a start, a stop, a delete or a [close] event for one id leaves
    the record and the registry entry of every other id as they were. *)
Theorem lifecycle_leaves_other_bots s botId now code k :
  k ≠ botId →
  (bots_db (post_start botId now s).2 !! k = bots_db s !! k ∧
   runningProcesses (post_start botId now s).2 !! k
   = runningProcesses s !! k) ∧
  (bots_db (post_stop botId now s).2 !! k = bots_db s !! k ∧
   runningProcesses (post_stop botId now s).2 !! k
   = runningProcesses s !! k) ∧
  (bots_db (delete_bot botId s).2 !! k = bots_db s !! k ∧
   runningProcesses (delete_bot botId s).2 !! k
   = runningProcesses s !! k) ∧
  (bots_db (on_close botId code s) !! k = bots_db s !! k ∧
   runningProcesses (on_close botId code s) !! k
   = runningProcesses s !! k).
Proof.
  intros Hne. split; [|split; [|split]].
  - destruct (post_start_cases s botId now)
      as [[_ ->]|(bot & _ & _ & _ & ->)]; [done|]. simpl.
    by rewrite !lookup_insert_ne.
  - destruct (post_stop_cases s botId now) as [[_ ->]|(p & _ & ->)];
      [done|]. simpl.
    rewrite lookup_delete_ne by done.
    destruct (bots_db s !! botId); by rewrite ?lookup_insert_ne.
  - destruct (delete_bot_cases s botId) as [[_ ->]| ->]; [done|]. simpl.
    by rewrite !lookup_delete_ne.
  - unfold on_close, JsObject.remove; simpl. by rewrite lookup_delete_ne.
Qed.

Lemma lifecycle_leaves_other_bots_witness :
  (delete_bot alice_id two_bots_running).1 = Ok "Bot deleted successfully" ∧
  is_Some (bots_db two_bots_running !! bob_id) ∧
  is_Some (runningProcesses two_bots_running !! bob_id) ∧
  bots_db (delete_bot alice_id two_bots_running).2 !! bob_id
  = bots_db two_bots_running !! bob_id ∧
  runningProcesses (delete_bot alice_id two_bots_running).2 !! bob_id
  = runningProcesses two_bots_running !! bob_id.
Proof.
  split; [vm_compute; reflexivity|].
  split; [vm_compute; eauto|]. split; [vm_compute; eauto|].
  refine (proj1 (proj2 (proj2
            (lifecycle_leaves_other_bots two_bots_running alice_id
               "2023-11-14T22:16:00.000Z" None bob_id _)))).
  vm_compute. discriminate.
Defined.

(** ** Start, stop and exit in sequence *)

(** X4: a stop right after a successful start succeeds and undoes the
    registration: the registry is the one from before the start, the
    process spawned is the one killed, and the record reads [stopped] with
    both the start and the stop time; the files are untouched. *)
Theorem start_then_stop s botId t1 t2 :
  succeeded (post_start botId t1 s).1 = true →
  ∃ bot,
    bots_db s !! botId = Some bot ∧
    post_stop botId t2 (post_start botId t1 s).2 =
      (Ok "Bot stopped successfully",
       {| bots_db := <[botId := stopped t2 (started t1 bot)]> (bots_db s);
          runningProcesses := runningProcesses s;
          files := files s;
          effects := effects s ++ [Spawned (spawned_for bot);
                                   Killed (spawned_for bot)] |}) ∧
    Bot.status (stopped t2 (started t1 bot)) = "stopped" ∧
    Bot.started_at (stopped t2 (started t1 bot)) = Some t1 ∧
    Bot.stopped_at (stopped t2 (started t1 bot)) = Some t2.
Proof.
  intros Hok.
  destruct (post_start_cases s botId t1)
    as [[Hfail _]|(bot & Hbot & Hnone & _ & Heq)]; [congruence|].
  exists bot. split; [done|]. rewrite Heq. simpl.
  split; [|done].
  rewrite (post_stop_running _ _ _ (started t1 bot) (spawned_for bot));
    simpl; try apply lookup_insert_eq.
  by rewrite insert_insert_eq, delete_insert_id, <- app_assoc.
Qed.

Lemma start_then_stop_witness :
  ∃ bot,
    bots_db after_alice_upload !! alice_id = Some bot ∧
    post_stop alice_id "2023-11-14T22:15:00.000Z"
      (post_start alice_id "2023-11-14T22:14:00.000Z" after_alice_upload).2 =
      (Ok "Bot stopped successfully",
       {| bots_db := <[alice_id := stopped "2023-11-14T22:15:00.000Z"
                                     (started "2023-11-14T22:14:00.000Z" bot)]>
                       (bots_db after_alice_upload);
          runningProcesses := runningProcesses after_alice_upload;
          files := files after_alice_upload;
          effects := effects after_alice_upload
                     ++ [Spawned (spawned_for bot);
                         Killed (spawned_for bot)] |}) ∧
    Bot.status (stopped "2023-11-14T22:15:00.000Z"
                  (started "2023-11-14T22:14:00.000Z" bot)) = "stopped" ∧
    Bot.started_at (stopped "2023-11-14T22:15:00.000Z"
                      (started "2023-11-14T22:14:00.000Z" bot))
      = Some "2023-11-14T22:14:00.000Z" ∧
    Bot.stopped_at (stopped "2023-11-14T22:15:00.000Z"
                      (started "2023-11-14T22:14:00.000Z" bot))
      = Some "2023-11-14T22:15:00.000Z".
Proof.
  refine (start_then_stop after_alice_upload alice_id
            "2023-11-14T22:14:00.000Z" "2023-11-14T22:15:00.000Z" _).
  vm_compute. reflexivity.
Defined.

(** X5: once the process of a successfully started bot has exited (its
    [close] event was delivered), the bot can be started again: the
    second start succeeds, registers a process for the same script and
    interpreter, and spawns it. *)
Theorem restart_after_exit s botId t1 t2 code :
  succeeded (post_start botId t1 s).1 = true →
  ∃ bot,
    bots_db s !! botId = Some bot ∧
    let s' := (post_start botId t2
                 (on_close botId code (post_start botId t1 s).2)).2 in
    (post_start botId t2 (on_close botId code (post_start botId t1 s).2)).1
      = Ok "Bot started successfully" ∧
    runningProcesses s' !! botId = Some (spawned_for bot) ∧
    effects s' = (effects s ++ [Spawned (spawned_for bot);
                               Spawned (spawned_for bot)])%list ∧
    ∃ bot', bots_db s' !! botId = Some bot' ∧
            Bot.status bot' = "running" ∧ Bot.started_at bot' = Some t2.
Proof.
  intros Hok.
  destruct (post_start_cases s botId t1)
    as [[Hfail _]|(bot & Hbot & Hnone & Hk & Heq)]; [congruence|].
  exists bot. split; [done|]. rewrite Heq. simpl.
  rewrite (post_start_spawns _ _ _ (started t1 bot)); simpl.
  - rewrite lookup_insert_eq, <- app_assoc.
    do 3 (split; [done|]).
    exists (started t2 (started t1 bot)). by rewrite lookup_insert_eq.
  - apply lookup_insert_eq.
  - unfold JsObject.remove. by rewrite (get_ordinary _ _ Hk), lookup_delete_eq.
Qed.

Lemma restart_after_exit_witness :
  ∃ bot,
    bots_db after_alice_upload !! alice_id = Some bot ∧
    (post_start alice_id "2023-11-14T22:16:00.000Z"
       (on_close alice_id (Some 1) after_alice_start)).1
      = Ok "Bot started successfully".
Proof.
  destruct (restart_after_exit after_alice_upload alice_id
              "2023-11-14T22:14:00.000Z" "2023-11-14T22:16:00.000Z" (Some 1))
    as (bot & Hbot & Hok & _).
  - vm_compute. reflexivity.
  - exists bot. split; [exact Hbot|exact Hok].
Defined.

(** X6: the [close] observer removes the registry entry by id, not by
    process.  When a bot is started, stopped and started again, and the
    [close] event of the first process arrives only then, the entry of
    the second process is removed although that process was never killed:
    the bot is reported as stopped and a stop answers [NotRunning]. *)
Theorem late_close_drops_restarted_bot s botId t1 t2 t3 t4 code :
  succeeded (post_start botId t1 s).1 = true →
  ∃ bot,
    bots_db s !! botId = Some bot ∧
    let s3 := (post_start botId t3
                 (post_stop botId t2 (post_start botId t1 s).2).2).2 in
    let s4 := on_close botId code s3 in
    runningProcesses s3 !! botId = Some (spawned_for bot) ∧
    runningProcesses s4 !! botId = None ∧
    effects s4 = (effects s ++ [Spawned (spawned_for bot);
                               Killed (spawned_for bot);
                               Spawned (spawned_for bot)])%list ∧
    liveness s4 botId = "stopped" ∧
    post_stop botId t4 s4 = (NotRunning, s4).
Proof.
  intros Hok.
  destruct (post_start_cases s botId t1)
    as [[Hfail _]|(bot & Hbot & Hnone & Hk & Heq)]; [congruence|].
  exists bot. split; [done|]. rewrite Heq. simpl.
  rewrite (post_stop_running _ _ _ (started t1 bot) (spawned_for bot));
    simpl; try apply lookup_insert_eq.
  rewrite (post_start_spawns _ _ _ (stopped t2 (started t1 bot))); simpl.
  - rewrite lookup_insert_eq. split; [done|].
    unfold on_close, JsObject.remove; simpl.
    rewrite lookup_delete_eq. split; [done|].
    split; [by rewrite <- !app_assoc|].
    split.
    + unfold liveness; simpl.
      by rewrite (get_ordinary _ _ Hk), lookup_delete_eq.
    + eapply post_stop_not_running; simpl;
        [apply lookup_insert_eq|apply lookup_delete_eq|done].
  - apply lookup_insert_eq.
  - by rewrite (get_ordinary _ _ Hk), lookup_delete_eq.
Qed.

Lemma late_close_drops_restarted_bot_witness :
  ∃ bot,
    bots_db after_alice_upload !! alice_id = Some bot ∧
    runningProcesses
      (on_close alice_id None
         (post_start alice_id "2023-11-14T22:16:00.000Z"
            (post_stop alice_id "2023-11-14T22:15:00.000Z"
               (post_start alice_id "2023-11-14T22:14:00.000Z"
                  after_alice_upload).2).2).2) !! alice_id = None.
Proof.
  destruct (late_close_drops_restarted_bot after_alice_upload alice_id
              "2023-11-14T22:14:00.000Z" "2023-11-14T22:15:00.000Z"
              "2023-11-14T22:16:00.000Z" "2023-11-14T22:17:00.000Z" None)
    as (bot & Hbot & _ & Hnone & _).
  - vm_compute. reflexivity.
  - exists bot. split; [exact Hbot|exact Hnone].
Defined.

(** ** Upload, step by step *)

Section UploadSteps.
Variable path_join : string → string → string.

(** An upload is refused (and then stores no record and touches neither
    registry nor processes), or stores the uploaded record. *)
Lemma post_upload_cases req date_now now s :
  (succeeded (post_upload path_join req date_now now s).1 = false ∧
   bots_db (post_upload path_join req date_now now s).2 = bots_db s ∧
   runningProcesses (post_upload path_join req date_now now s).2
   = runningProcesses s ∧
   effects (post_upload path_join req date_now now s).2 = effects s ∧
   files s ⊆ files (post_upload path_join req date_now now s).2) ∨
  (∃ owner bot_name orig,
     req = {| body_username := Some owner; body_bot_name := Some bot_name;
              bot_file := Some orig |} ∧
     owner ≠ "" ∧ bot_name ≠ "" ∧
     post_upload path_join req date_now now s =
       (Json 200 true
          (BotId (uploaded_id req orig date_now) "Bot uploaded successfully"),
        {| bots_db :=
             JsObject.set (bots_db s) (uploaded_id req orig date_now)
               (uploaded_record path_join owner bot_name orig date_now now);
           runningProcesses := runningProcesses s;
           files := {[ path_join (path_join BOTS_DIR owner)
                         (storage_filename req orig date_now) ]} ∪ files s;
           effects := effects s |})).
Proof.
  destruct req as [[u|] [b|] [f|]];
    try (left; unfold post_upload, upload_single, upload_handler,
           storage_destination; simpl; repeat split; (done || set_solver)).
  destruct (decide (u = "")) as [->|Hu];
    [left; unfold post_upload, upload_single, upload_handler,
       storage_destination; simpl; repeat split; (done || set_solver)|].
  destruct (decide (b = "")) as [->|Hb].
  { left. unfold post_upload, upload_single, upload_handler,
      storage_destination; simpl.
    rewrite (bool_decide_eq_false_2 _ Hu). simpl.
    repeat split; (done || set_solver). }
  right. exists u, b, f. do 3 (split; [done|]).
  unfold post_upload, upload_single, upload_handler, storage_destination,
    loadBots; simpl.
  by rewrite (bool_decide_eq_false_2 _ Hu), (bool_decide_eq_false_2 _ Hb).
Qed.

End UploadSteps.

(** ** The upload handler on what multer hands over *)

(** X8: whatever request body and file record multer hands over, the
    upload handler touches neither the registry, nor a process, nor a
    file on disk; the only record it can change is the one under the id
    it answers with, and only when it answers with success; and when it
    refuses the request with [ValidationError] it has changed nothing, so
    that a file multer has stored for the request stays on disk without a
    record. *)
Theorem upload_handler_changes_one_record req file now s :
  runningProcesses (upload_handler req file now s).2 = runningProcesses s ∧
  effects (upload_handler req file now s).2 = effects s ∧
  files (upload_handler req file now s).2 = files s ∧
  (∀ k, bots_db (upload_handler req file now s).2 !! k ≠ bots_db s !! k →
        (upload_handler req file now s).1
        = Json 200 true (BotId k "Bot uploaded successfully")) ∧
  ((upload_handler req file now s).1 = ValidationError →
   (upload_handler req file now s).2 = s).
Proof.
  unfold upload_handler.
  destruct (body_username req) as [u|], (body_bot_name req) as [b|],
    file as [f|]; try done.
  destruct (bool_decide (u = "") || bool_decide (b = "")); [done|].
  simpl. do 3 (split; [done|]). split; [|done].
  intros k Hk. unfold loadBots in Hk.
  match type of Hk with JsObject.set ?o ?i ?v !! _ ≠ _ =>
    destruct (lookup_set o i v k) as [Heq|[-> _]] end; [done|done].
Qed.

(** X9: handed a request with an owner and a bot name that are not empty
    and the file record of multer, the handler stores a record under the
    base name of the stored file name without its extension, whatever
    was stored under that id before (there is no check for an id already
    in use, nor for a bot that is running).  The record carries the
    owner, the name, the creation time, the path multer gave the file,
    as [file_type] the extension of the stored file name without the dot,
    the status [stopped], no start and no stop time and zero usage; the
    answer is success with that id; no other record, no registry entry,
    no file and no process is touched.  The id [__proto__] is set
    aside. *)
Theorem upload_handler_stores_record req owner bot_name file now s :
  body_username req = Some owner → body_bot_name req = Some bot_name →
  owner ≠ "" → bot_name ≠ "" →
  let botId := Path.basename (filename file) (Path.extname (filename file)) in
  let record :=
    {| Bot.id := botId; Bot.name := bot_name; Bot.username := owner;
       Bot.file_path := path file;
       Bot.file_type := JsString.substring1 (Path.extname (filename file));
       Bot.status := "stopped"; Bot.created_at := now;
       Bot.started_at := None; Bot.stopped_at := None;
       Bot.cpu := 0; Bot.memory := 0 |} in
  botId ≠ "__proto__" →
  upload_handler req (Some file) now s =
    (Json 200 true (BotId botId "Bot uploaded successfully"),
     {| bots_db := <[botId := record]> (bots_db s);
        runningProcesses := runningProcesses s;
        files := files s;
        effects := effects s |}).
Proof.
  intros Hu Hb Hune Hbne botId record Hid.
  unfold upload_handler, loadBots, saveBots. rewrite Hu, Hb.
  rewrite (bool_decide_eq_false_2 _ Hune), (bool_decide_eq_false_2 _ Hbne).
  simpl. fold botId. do 2 f_equal.
  unfold JsObject.set.
  destruct (bots_db s !! botId); [done|].
  by rewrite (bool_decide_eq_false_2 _ Hid).
Qed.

(** The name of [alice_file] is the one the [filename] callback builds
    for [alice_upload], and likewise for [bob_file]. *)
Example example_file_names :
  storage_filename alice_upload "bot.py" 1700000000000 = filename alice_file ∧
  storage_filename bob_upload "ping.js" 1700000060000 = filename bob_file.
Proof. split; vm_compute; reflexivity. Qed.

Lemma upload_handler_stores_record_witness :
  (upload_handler alice_upload (Some alice_file) "2023-11-14T22:13:20.000Z"
     (writeFile (path alice_file) init)).1
  = Json 200 true (BotId alice_id "Bot uploaded successfully") ∧
  bots_db alice_stored !! alice_id =
    Some {| Bot.id := alice_id; Bot.name := "echoBot";
            Bot.username := "alice";
            Bot.file_path := "user_bots/alice/alice_echoBot_1700000000000.py";
            Bot.file_type := "py"; Bot.status := "stopped";
            Bot.created_at := "2023-11-14T22:13:20.000Z";
            Bot.started_at := None; Bot.stopped_at := None;
            Bot.cpu := 0; Bot.memory := 0 |}.
Proof.
  pose proof (upload_handler_stores_record alice_upload "alice" "echoBot"
                alice_file "2023-11-14T22:13:20.000Z"
                (writeFile (path alice_file) init)) as H.
  unfold alice_stored.
  rewrite H; [|vm_compute; reflexivity || discriminate ..].
  split; vm_compute; reflexivity.
Defined.

(** ** What every run keeps *)

Section RunInvariants.
Variable path_join : string → string → string.

Lemma record_ok_uploaded owner bot_name orig date_now now :
  record_ok
    (uploaded_id {| body_username := Some owner;
                    body_bot_name := Some bot_name;
                    bot_file := Some orig |} orig date_now)
    (uploaded_record path_join owner bot_name orig date_now now).
Proof. unfold record_ok; simpl. repeat split; auto. discriminate. Qed.

Lemma record_ok_started k now bot :
  record_ok k bot → record_ok k (started now bot).
Proof.
  intros (Hid & Hcpu & Hmem & _ & _). unfold record_ok; simpl.
  repeat split; eauto.
Qed.

Lemma record_ok_stopped k now bot :
  record_ok k bot → record_ok k (stopped now bot).
Proof.
  intros (Hid & Hcpu & Hmem & _ & _). unfold record_ok; simpl.
  repeat split; auto. discriminate.
Qed.

Lemma reachable_records_ok s : reachable path_join s → records_ok s.
Proof.
  induction 1 as [|s req d now _ IH|s u _ IH|s b now _ IH|s b now _ IH
                  |s b _ IH|s b _ IH|s b _ IH|s b code _ IH];
    intros k bot.
  - simpl. intros Hk. by rewrite lookup_empty in Hk.
  - destruct (post_upload_cases path_join req d now s)
      as [(_ & -> & _)|(o & n & f & -> & _ & _ & ->)]; [apply IH|].
    simpl.
    match goal with |- JsObject.set ?m ?i ?v !! _ = _ → _ =>
      destruct (lookup_set m i v k) as [->|[-> ->]] end; [apply IH|].
    intros [= <-]. apply record_ok_uploaded.
  - apply IH.
  - destruct (post_start_cases s b now) as [[_ ->]|(bot0 & Hb & _ & _ & ->)];
      [apply IH|]. simpl.
    destruct (decide (k = b)) as [->|Hne].
    + rewrite lookup_insert_eq. intros [= <-].
      by apply record_ok_started, IH.
    + rewrite lookup_insert_ne by done. apply IH.
  - destruct (post_stop_cases s b now) as [[_ ->]|(p & _ & ->)];
      [apply IH|]. simpl.
    destruct (bots_db s !! b) as [bot0|] eqn:Hb; [|apply IH].
    destruct (decide (k = b)) as [->|Hne].
    + rewrite lookup_insert_eq. intros [= <-].
      by apply record_ok_stopped, IH.
    + rewrite lookup_insert_ne by done. apply IH.
  - destruct (delete_bot_cases s b) as [[_ ->]| ->]; [apply IH|]. simpl.
    intros [_ Hk]%lookup_delete_Some. by apply IH.
  - unfold get_logs, loadBots. destruct (JsObject.get _ _); apply IH.
  - unfold get_status, loadBots. destruct (JsObject.get _ _); apply IH.
  - apply IH.
Qed.

Lemma reachable_processes_ok s : reachable path_join s → processes_ok s.
Proof.
  induction 1 as [|s req d now _ IH|s u _ IH|s b now _ IH|s b now _ IH
                  |s b _ IH|s b _ IH|s b _ IH|s b code _ IH].
  - split; simpl; [intros k p Hk; by rewrite lookup_empty in Hk|].
    intros p Hp. by apply elem_of_nil in Hp.
  - destruct IH as [Hreg Hkill].
    destruct (post_upload_cases path_join req d now s)
      as [(_ & _ & Hr & He & _)|(o & n & f & -> & _ & _ & ->)].
    + split; [intros k p|intros p]; rewrite ?Hr, He; eauto.
    + split; simpl; eauto.
  - done.
  - destruct IH as [Hreg Hkill].
    destruct (post_start_cases s b now) as [[_ ->]|(bot0 & _ & _ & _ & ->)];
      [done|]. split; simpl.
    + intros k p. rewrite elem_of_app, list_elem_of_singleton.
      destruct (decide (k = b)) as [->|Hne].
      * rewrite lookup_insert_eq. intros [= <-]. by right.
      * rewrite lookup_insert_ne by done. eauto.
    + intros p. rewrite !elem_of_app, !list_elem_of_singleton.
      intros [Hp|[=]]. eauto.
  - destruct IH as [Hreg Hkill].
    destruct (post_stop_cases s b now) as [[_ ->]|(p0 & Hp0 & ->)];
      [done|]. split; simpl.
    + intros k p [_ Hk]%lookup_delete_Some.
      rewrite elem_of_app. eauto.
    + intros p. rewrite !elem_of_app, !list_elem_of_singleton.
      intros [Hp|[= <-]]; eauto.
  - destruct IH as [Hreg Hkill].
    destruct (delete_bot_cases s b) as [[_ ->]| ->]; [done|].
    split; simpl.
    + intros k p [_ Hk]%lookup_delete_Some.
      rewrite elem_of_app. eauto.
    + intros p. rewrite !elem_of_app.
      destruct (runningProcesses s !! b) as [p0|] eqn:Hp0.
      * rewrite !list_elem_of_singleton. intros [Hp|[= <-]]; eauto.
      * intros [Hp|Hp]; [eauto|by apply elem_of_nil in Hp].
  - unfold get_logs, loadBots. by destruct (JsObject.get _ _).
  - unfold get_status, loadBots. by destruct (JsObject.get _ _).
  - destruct IH as [Hreg Hkill]. split; simpl; [|done].
    unfold JsObject.remove. intros k p [_ Hk]%lookup_delete_Some. eauto.
Qed.

(** Appending an event keeps the order of the log, when a kill that is
    appended is of a process the log has spawned. *)
Lemma kills_follow_spawns_snoc log e :
  kills_follow_spawns log →
  (∀ p, e = Killed p → Spawned p ∈ log) →
  kills_follow_spawns (log ++ [e]).
Proof.
  intros Hlog He i p Hi.
  destruct (decide (i < List.length log)%nat) as [Hlt|Hge].
  - rewrite lookup_app_l in Hi by done.
    destruct (Hlog i p Hi) as (j & Hj & Hsp).
    exists j. split; [done|]. rewrite lookup_app_l by lia. done.
  - rewrite lookup_app_r in Hi by lia.
    destruct (i - List.length log)%nat as [|n] eqn:Hn; [|by destruct n].
    injection Hi as ->.
    destruct (list_elem_of_lookup_1 _ _ (He p eq_refl)) as [j Hj].
    pose proof (lookup_lt_Some _ _ _ Hj).
    exists j. split; [lia|]. by rewrite lookup_app_l.
Qed.

Lemma reachable_kills_follow_spawns s :
  reachable path_join s → kills_follow_spawns (effects s).
Proof.
  induction 1 as [|s req d now Hs IH|s u _ IH|s b now Hs IH|s b now Hs IH
                  |s b Hs IH|s b _ IH|s b _ IH|s b code _ IH].
  - intros i p Hi. simpl in Hi. by rewrite lookup_nil in Hi.
  - destruct (post_upload_cases path_join req d now s)
      as [(_ & _ & _ & -> & _)|(o & n & f & -> & _ & _ & ->)]; done.
  - done.
  - destruct (post_start_cases s b now) as [[_ ->]|(bot0 & _ & _ & _ & ->)];
      [done|]. simpl. by apply kills_follow_spawns_snoc.
  - destruct (post_stop_cases s b now) as [[_ ->]|(p0 & Hp0 & ->)];
      [done|]. simpl. apply kills_follow_spawns_snoc; [done|].
    intros p [= <-]. by apply (reachable_processes_ok s Hs) in Hp0.
  - destruct (delete_bot_cases s b) as [[_ ->]| ->]; [done|]. simpl.
    destruct (runningProcesses s !! b) as [p0|] eqn:Hp0;
      [|by rewrite app_nil_r].
    apply kills_follow_spawns_snoc; [done|].
    intros p [= <-]. by apply (reachable_processes_ok s Hs) in Hp0.
  - unfold get_logs, loadBots. by destruct (JsObject.get _ _).
  - unfold get_status, loadBots. by destruct (JsObject.get _ _).
  - done.
Qed.

End RunInvariants.

(** X10: in every state the service reaches, the record stored under a
    key has that key as its [id], zero [cpu] and [memory], a status that
    is [running] or [stopped], and a start time whenever it reads
    [running]. *)
Theorem stored_records_well_formed path_join s k bot :
  reachable path_join s →
  bots_db s !! k = Some bot →
  Bot.id bot = k ∧ Bot.cpu bot = 0 ∧ Bot.memory bot = 0 ∧
  (Bot.status bot = "running" ∨ Bot.status bot = "stopped") ∧
  (Bot.status bot = "running" → is_Some (Bot.started_at bot)).
Proof. intros Hs Hbot. by apply (reachable_records_ok path_join s Hs). Qed.

Lemma stored_records_well_formed_witness :
  ∃ bot, bots_db after_alice_start !! alice_id = Some bot ∧
         Bot.id bot = alice_id ∧ Bot.status bot = "running" ∧
         is_Some (Bot.started_at bot).
Proof.
  exists (started "2023-11-14T22:14:00.000Z" alice_bot).
  assert (Hbot : bots_db after_alice_start !! alice_id
                 = Some (started "2023-11-14T22:14:00.000Z" alice_bot))
    by (vm_compute; reflexivity).
  assert (Hreach : reachable join_with_slash after_alice_start).
  { unfold after_alice_start, after_alice_upload.
    apply reach_start, reach_upload, reach_init. }
  destruct (stored_records_well_formed join_with_slash after_alice_start
              alice_id _ Hreach Hbot) as (Hid & _ & _ & _ & Hstart).
  split; [exact Hbot|]. split; [exact Hid|]. split; [reflexivity|].
  apply Hstart. reflexivity.
Defined.

(** X11: in every state the service reaches, the status route answers
    [NotFound] or success with a status that is [running] or [stopped]
    and with [cpu] and [memory] equal to zero; it never changes the
    state. *)
Theorem status_reports_zero_usage path_join s botId :
  reachable path_join s →
  get_status botId s = (NotFound, s) ∨
  ∃ st, (st = "running" ∨ st = "stopped") ∧
        get_status botId s = (Json 200 true (StatusInfo st 0 0), s).
Proof.
  intros Hs%reachable_records_ok. unfold get_status, loadBots.
  destruct (JsObject.get (bots_db s) botId) as [bot| |] eqn:Hbot;
    [| |by left]; right.
  - apply get_is_own, Hs in Hbot as (_ & -> & -> & _).
    destruct (JsObject.truthy _); eauto.
  - destruct (JsObject.truthy _); eauto.
Qed.

Lemma status_reports_zero_usage_witness :
  get_status alice_id after_alice_start = (NotFound, after_alice_start) ∨
  ∃ st, (st = "running" ∨ st = "stopped") ∧
        get_status alice_id after_alice_start
        = (Json 200 true (StatusInfo st 0 0), after_alice_start).
Proof.
  refine (status_reports_zero_usage join_with_slash after_alice_start
            alice_id _).
  unfold after_alice_start, after_alice_upload.
  apply reach_start, reach_upload, reach_init.
Defined.

(** X12: in every state the service reaches, the status route and the
    listing agree on a stored bot: the status route answers with the
    liveness of its key, and the listing of its owner shows the record
    with that same liveness as its status. *)
Theorem status_and_listing_agree path_join s k bot :
  reachable path_join s →
  bots_db s !! k = Some bot →
  get_status k s = (Json 200 true (StatusInfo (liveness s k) 0 0), s) ∧
  Bot.with_status (liveness s k) bot ∈ listed (Bot.username bot) s.
Proof.
  intros Hs%reachable_records_ok Hbot.
  destruct (Hs k bot Hbot) as (Hid & Hcpu & Hmem & _). split.
  - unfold get_status, loadBots, liveness.
    rewrite (get_own _ _ _ Hbot), Hcpu, Hmem.
    by destruct (JsObject.truthy _).
  - unfold listed, get_bots, loadBots, JsObject.values; simpl.
    apply list_elem_of_fmap. exists bot. split; [by rewrite Hid|].
    apply list_elem_of_filter. split; [done|].
    apply list_elem_of_fmap. exists (k, bot). split; [done|].
    by apply elem_of_map_to_list.
Qed.

Lemma status_and_listing_agree_witness :
  get_status alice_id after_alice_start
  = (Json 200 true (StatusInfo (liveness after_alice_start alice_id) 0 0),
     after_alice_start) ∧
  Bot.with_status (liveness after_alice_start alice_id)
    (started "2023-11-14T22:14:00.000Z" alice_bot)
  ∈ listed "alice" after_alice_start.
Proof.
  refine (status_and_listing_agree join_with_slash after_alice_start
            alice_id (started "2023-11-14T22:14:00.000Z" alice_bot) _ _).
  - unfold after_alice_start, after_alice_upload.
    apply reach_start, reach_upload, reach_init.
  - vm_compute. reflexivity.
Defined.

(** X13: in every state the service reaches, each process handle held in
    the registry was spawned by the service, and every kill in the log of
    process effects comes after a spawn with the same command and script
    (which is what a process handle is here): the service never kills a
    process before it has spawned it. *)
Theorem only_spawned_processes_are_killed path_join s :
  reachable path_join s →
  (∀ k p, runningProcesses s !! k = Some p → Spawned p ∈ effects s) ∧
  (∀ i p, effects s !! i = Some (Killed p) →
          ∃ j, (j < i)%nat ∧ effects s !! j = Some (Spawned p)).
Proof.
  intros Hs. split.
  - apply (reachable_processes_ok path_join s Hs).
  - apply (reachable_kills_follow_spawns path_join s Hs).
Qed.

Lemma only_spawned_processes_are_killed_witness :
  effects (post_stop alice_id "2023-11-14T22:15:00.000Z" after_alice_start).2
    !! 1%nat = Some (Killed (spawned_for alice_bot)) ∧
  ∃ j, (j < 1)%nat ∧
       effects (post_stop alice_id "2023-11-14T22:15:00.000Z"
                  after_alice_start).2 !! j
       = Some (Spawned (spawned_for alice_bot)).
Proof.
  assert (H : effects (post_stop alice_id "2023-11-14T22:15:00.000Z"
                         after_alice_start).2 !! 1%nat
              = Some (Killed (spawned_for alice_bot)))
    by (vm_compute; reflexivity).
  split; [exact H|].
  refine (proj2 (only_spawned_processes_are_killed join_with_slash
                   (post_stop alice_id "2023-11-14T22:15:00.000Z"
                      after_alice_start).2 _)
            1%nat (spawned_for alice_bot) H).
  unfold after_alice_start, after_alice_upload.
  apply reach_stop, reach_start, reach_upload, reach_init.
Defined.

(** ** The id of any upload *)

Section AnyUploadId.

Lemma last_char_cons c s : s ≠ "" → last_char (String c s) = last_char s.
Proof. by destruct s. Qed.

Lemma last_char_nonempty s c : last_char s = Some c → s ≠ "".
Proof. by destruct s. Qed.

Lemma last_char_app a b : b ≠ "" → last_char (a +:+ b) = last_char b.
Proof.
  intros Hb. induction a as [|c a IH]; [done|].
  change (last_char (String c (a +:+ b)) = last_char b).
  rewrite last_char_cons; [done|]. by destruct a, b.
Qed.

(** The replacement keeps a last character that is not whitespace. *)
Lemma last_char_replace_ws in_run s c :
  last_char s = Some c → JsString.is_whitespace c = false →
  last_char (JsString.replace_ws_go in_run s) = Some c.
Proof.
  intros Hlast Hc. revert in_run.
  induction s as [|a s IH]; intros in_run; [done|].
  destruct (decide (s = "")) as [->|Hs].
  - simpl in Hlast. injection Hlast as ->. simpl. by rewrite Hc.
  - rewrite last_char_cons in Hlast by done. specialize (IH Hlast).
    simpl. destruct (JsString.is_whitespace a), in_run; try apply IH;
      (rewrite last_char_cons; [apply IH|]);
      eapply last_char_nonempty, IH.
Qed.

Lemma string_app_assoc a b c : (a +:+ b) +:+ c = a +:+ (b +:+ c).
Proof.
  induction a as [|x a IH]; [done|].
  exact (f_equal (String x) IH).
Qed.

Lemma pretty_N_go_prefix x s : ∃ p, pretty_N_go x s = p +:+ s.
Proof.
  revert s. induction (N.lt_wf_0 x) as [x _ IH]; intros s.
  destruct (decide (x = 0%N)) as [->|Hx]; [by exists ""|].
  rewrite pretty_N_go_step by lia.
  destruct (IH (x `div` 10)%N) with
    (s := String (pretty_N_char (x `mod` 10)) s) as [p Hp];
    [apply N.div_lt; lia|].
  exists (p +:+ String (pretty_N_char (x `mod` 10)) "").
  by rewrite Hp, string_app_assoc.
Qed.

(** The decimal text of a clock reading ends with a digit. *)
Lemma last_char_pretty (x : N) :
  ∃ c, last_char (pretty x) = Some c ∧ JsString.is_digit c = true.
Proof.
  unfold pretty, pretty_N. case_decide as Hx; [by exists "0"%char|].
  rewrite pretty_N_go_step by lia.
  destruct (pretty_N_go_prefix (x `div` 10)
              (String (pretty_N_char (x `mod` 10)) "")) as [p ->].
  exists (pretty_N_char (x `mod` 10)).
  rewrite last_char_app by done. split; [done|apply pretty_N_char_digit].
Qed.

Lemma digit_facts c :
  JsString.is_digit c = true →
  JsString.is_whitespace c = false ∧ Path.is_plain_char c = true.
Proof.
  destruct c as [[] [] [] [] [] [] [] []]; try discriminate; by intros _.
Qed.

(** The stem of the stored file name holds no whitespace and ends with a
    digit. *)
Lemma filename_stem_facts req date_now :
  JsString.every (λ c, negb (JsString.is_whitespace c))
    (filename_stem req date_now) = true ∧
  ∃ c, last_char (filename_stem req date_now) = Some c ∧
       JsString.is_digit c = true.
Proof.
  split; [apply replace_ws_no_whitespace|].
  destruct (last_char_pretty date_now) as (c & Hlast & Hc).
  exists c. split; [|done].
  apply last_char_replace_ws; [|by apply digit_facts].
  pose proof (last_char_nonempty _ _ Hlast) as Hne.
  rewrite !last_char_app; try done; by destruct (JsString.template _).
Qed.

(** An id ending with a digit is no property name of [Object.prototype]. *)
Lemma ends_with_digit_ordinary k c :
  last_char k = Some c → JsString.is_digit c = true →
  JsObject.is_prototype_key k = false.
Proof.
  intros Hlast Hc. apply bool_decide_eq_false. intros Hin.
  unfold JsObject.object_prototype_keys in Hin.
  repeat (apply elem_of_cons in Hin as [->|Hin];
          [simpl in Hlast; injection Hlast as <-; discriminate|]).
  by apply elem_of_nil in Hin.
Qed.

Lemma last_char_get s c :
  last_char s = Some c →
  ∃ n, String.length s = S n ∧ String.get n s = Some c.
Proof.
  induction s as [|a s IH]; [done|].
  destruct (decide (s = "")) as [->|Hs].
  - intros [= ->]. by exists 0%nat.
  - rewrite last_char_cons by done. intros (n & Hlen & Hget)%IH.
    exists (S n). simpl. by rewrite Hlen.
Qed.

(** A piece of a string inherits what holds of every character. *)
Lemma every_substring P s a k :
  JsString.every P s = true →
  JsString.every P (String.substring a k s) = true.
Proof.
  revert a k. induction s as [|c s IH]; intros a k; [by destruct a, k|].
  simpl. intros [Hc Hs]%andb_true_iff.
  destruct a as [|a]; [destruct k as [|k]; [done|]|by apply IH].
  simpl. rewrite Hc. by apply IH.
Qed.

Lemma substring_app_l a b i k :
  (i + k ≤ String.length a)%nat →
  String.substring i k (a +:+ b) = String.substring i k a.
Proof.
  revert i k. induction a as [|c a IH]; intros i k Hlen.
  { simpl in Hlen. assert (i = 0%nat ∧ k = 0%nat) as [-> ->] by lia.
    by destruct b. }
  change (String.substring i k (String c (a +:+ b))
          = String.substring i k (String c a)).
  simpl in Hlen.
  destruct i as [|i]; [destruct k as [|k]; [done|]|]; simpl.
  - f_equal. apply IH. lia.
  - apply IH. lia.
Qed.

End AnyUploadId.

Section AnyStem.

(** The scan of [extname] left of the dot, over any characters. *)
Lemma extname_scan_left_of_dot path n st :
  Z.of_nat n < Path.startDot st → Path.ext_end st ≠ -1 →
  Path.ext_matchedSlash st = false → Path.startPart st = 0 →
  Path.preDotState st ≠ 0 →
  (Path.preDotState st = 1 → Z.of_nat n + 1 < Path.startDot st) →
  Path.startDot (Path.extname_scan path n st) = Path.startDot st ∧
  Path.ext_end (Path.extname_scan path n st) = Path.ext_end st ∧
  Path.preDotState (Path.extname_scan path n st) ≠ 0 ∧
  (Path.preDotState (Path.extname_scan path n st) = 1 →
   Path.startDot (Path.extname_scan path n st)
   ≠ Path.startPart (Path.extname_scan path n st) + 1).
Proof.
  revert st. induction n as [|i IH]; intros st Hn Hend Hm Hpart Hpre Hone.
  { simpl. rewrite Hpart. repeat split; try done. intros H%Hone. lia. }
  cbn [Path.extname_scan].
  destruct (String.get i path) as [c|] eqn:Hget.
  2: { rewrite Hpart. repeat split; try done. intros H%Hone. lia. }
  case_bool_decide as Hslash.
  { rewrite Hm. simpl. repeat split; try done. intros H%Hone. lia. }
  assert (Path.startDot st ≠ -1) as Hsd by lia.
  assert (Hnote :
    Path.extname_note i c st =
      {| Path.startDot := Path.startDot st;
         Path.startPart := Path.startPart st;
         Path.ext_end := Path.ext_end st;
         Path.ext_matchedSlash := Path.ext_matchedSlash st;
         Path.preDotState := if bool_decide (c = Path.dot) then 1 else -1 |}).
  { unfold Path.extname_note.
    rewrite (bool_decide_eq_false_2 _ Hend), (bool_decide_eq_false_2 _ Hsd).
    case_bool_decide; simpl; [|done].
    case_bool_decide as H1; simpl; [|done]. destruct st; simpl in *.
    by rewrite H1. }
  rewrite Hnote.
  match goal with |- context [Path.extname_scan path i ?st'] =>
    destruct (IH st') as (H1 & H2 & H3 & H4) end; simpl; try done;
    try lia; try (case_bool_decide; lia).
Qed.

(** The scan of [basename] left of a matched suffix, over any
    characters: only the start of the last portion can move. *)
Lemma basename_suffix_scan_left path suffix n st :
  Path.extIdx st < 0 → Path.firstNonSlashEnd st ≠ -1 →
  Path.base_matchedSlash st = false →
  Path.base_end (Path.basename_suffix_scan path suffix n st)
  = Path.base_end st ∧
  (Path.base_start (Path.basename_suffix_scan path suffix n st)
   = Path.base_start st ∨
   0 < Path.base_start (Path.basename_suffix_scan path suffix n st)
     ≤ Z.of_nat n).
Proof.
  revert st. induction n as [|i IH]; intros st Hidx Hfirst Hm.
  { simpl. auto. }
  cbn [Path.basename_suffix_scan].
  destruct (String.get i path) as [c|] eqn:Hget; [|auto].
  case_bool_decide as Hslash.
  { rewrite Hm. simpl. split; [done|]. right. lia. }
  assert (Path.basename_match suffix i c st = st) as ->.
  { unfold Path.basename_match.
    rewrite (bool_decide_eq_false_2 _ Hfirst).
    by rewrite (bool_decide_eq_false_2 (0 <= Path.extIdx st)) by lia. }
  destruct (IH st Hidx Hfirst Hm) as [He [Hs|Hs]]; split; auto.
  right. lia.
Qed.

(** The scan of [extname] up to the dot of an appended extension. *)
Lemma extname_scan_to_dot R e :
  Path.is_plain e = true →
  Path.extname_scan (R +:+ String Path.dot e)
    (String.length (R +:+ String Path.dot e))
    {| Path.startDot := -1; Path.startPart := 0; Path.ext_end := -1;
       Path.ext_matchedSlash := true; Path.preDotState := 0 |}
  = Path.extname_scan (R +:+ String Path.dot e) (String.length R)
      {| Path.startDot := Z.of_nat (String.length R); Path.startPart := 0;
         Path.ext_end := Z.of_nat (String.length (R +:+ String Path.dot e));
         Path.ext_matchedSlash := false; Path.preDotState := 0 |}.
Proof.
  intros He.
  rewrite length_app at 1. simpl String.length.
  replace (String.length R + S (String.length e))%nat
    with (S (String.length R) + String.length e)%nat by lia.
  rewrite (extname_scan_plain_no_dot _ _ _ _ (plain_between_suffix R _ e He))
    by done.
  match goal with |- Path.extname_scan _ _ ?st = _ => set (stA := st) end.
  assert (Path.startDot stA = -1) as HsdA
    by (unfold stA; by repeat case_bool_decide).
  rewrite (extname_scan_step _ _ Path.dot); [|
    replace (String.length R) with (String.length R + 0)%nat at 1 by lia;
    by rewrite get_app_r | done].
  rewrite (extname_note_first_dot _ _ HsdA).
  f_equal. rewrite length_app. simpl String.length.
  unfold stA. f_equal; repeat case_bool_decide; simpl in *; lia || done.
Qed.

(** [extname] gives back the extension appended to any stem that ends
    with a plain character. *)
Lemma extname_after_stem R c x :
  last_char R = Some c → Path.is_plain_char c = true →
  Path.is_extension x = true → x ≠ "" →
  Path.extname (R +:+ x) = x.
Proof.
  intros Hlast Hc Hx Hne.
  destruct (is_extension_inv x Hx) as [->|(e & -> & He)]; [done|].
  destruct (last_char_get R c Hlast) as (n & Hlen & Hget).
  unfold Path.extname. rewrite (extname_scan_to_dot R e He), Hlen.
  rewrite (extname_scan_step _ _ c);
    [|rewrite get_app_l by lia; done
     |by apply is_plain_char_spec in Hc as [? _]].
  rewrite (extname_note_plain_dot_seen _ _ _ Hc) by (simpl; lia).
  match goal with |- context [Path.extname_scan ?p n ?st] =>
    pose proof (extname_scan_left_of_dot p n st) as Hleft;
    set (r := Path.extname_scan p n st) in *
  end.
  destruct Hleft as (H1 & H2 & H3 & H4); simpl; try (done || lia).
  simpl in H1, H2.
  rewrite (bool_decide_eq_false_2 (Path.startDot r = -1)) by lia.
  rewrite (bool_decide_eq_false_2 (Path.ext_end r = -1)) by lia.
  rewrite (bool_decide_eq_false_2 _ H3). simpl.
  assert ((bool_decide (Path.preDotState r = 1)
           && bool_decide (Path.startDot r = Path.ext_end r - 1)
           && bool_decide (Path.startDot r = Path.startPart r + 1)) = false)
    as ->.
  { destruct (decide (Path.preDotState r = 1)) as [Hp|Hp].
    - rewrite (bool_decide_eq_false_2 _ (H4 Hp)). apply andb_false_r.
    - by rewrite (bool_decide_eq_false_2 _ Hp). }
  unfold JsString.slice. rewrite H1, H2, Nat2Z.id, length_app.
  replace (Z.to_nat _) with (String.length (String Path.dot e))
    by (simpl; lia).
  rewrite <- Hlen. apply substring_suffix.
Qed.

(** [basename] then cuts inside the stem. *)
Lemma basename_after_stem R c x :
  last_char R = Some c → Path.is_plain_char c = true →
  Path.is_extension x = true → x ≠ "" →
  ∃ a k, (a + k ≤ String.length R)%nat ∧
         Path.basename (R +:+ x) x = String.substring a k R.
Proof.
  intros Hlast Hc Hx Hne.
  destruct (last_char_get R c Hlast) as (n & Hlen & Hget).
  assert (0 < String.length x)%nat as Hlenx
    by (destruct x; simpl; [done|lia]).
  unfold Path.basename.
  rewrite (bool_decide_eq_true_2 (0 < String.length x)%nat) by lia.
  rewrite (bool_decide_eq_true_2
             (String.length x ≤ String.length (R +:+ x))%nat)
    by (rewrite length_app; lia).
  rewrite (bool_decide_eq_false_2 (x = R +:+ x)).
  2: { intros Heq%(f_equal String.length). rewrite length_app in Heq. lia. }
  simpl andb. cbv iota.
  assert (Hscan :
    Path.basename_suffix_scan (R +:+ x) x (String.length (R +:+ x))
      {| Path.base_start := 0; Path.base_end := -1;
         Path.base_matchedSlash := true;
         Path.extIdx := Z.of_nat (String.length x) - 1;
         Path.firstNonSlashEnd := -1 |}
    = Path.basename_suffix_scan (R +:+ x) x n (matched R x)).
  { destruct (String.length x) as [|j] eqn:Hj; [lia|].
    assert (Hinit :
      {| Path.base_start := 0; Path.base_end := -1;
         Path.base_matchedSlash := true;
         Path.extIdx := Z.of_nat (S j) - 1;
         Path.firstNonSlashEnd := -1 |}
      = matching (String.length (R +:+ x)) (String.length x) (S j)).
    { unfold matching. by rewrite !bool_decide_eq_true_2 by done. }
    rewrite Hinit, (length_app R x) at 1. rewrite Hj at 1.
    rewrite basename_suffix_scan_match;
      [|intros t d; by apply extension_no_slash|lia].
    rewrite Hlen.
    rewrite (basename_suffix_scan_step _ _ _ c);
      [|rewrite get_app_l by lia; done
       |by apply is_plain_char_spec in Hc as [? _]].
    f_equal. unfold Path.basename_match, matched; simpl.
    by rewrite (bool_decide_eq_false_2
                  (Z.of_nat (String.length (R +:+ x)) = -1)) by lia. }
  rewrite Hscan.
  pose proof (basename_suffix_scan_left (R +:+ x) x n (matched R x))
    as Hleft.
  set (r := Path.basename_suffix_scan (R +:+ x) x n (matched R x)) in *.
  destruct Hleft as [He Hs]; simpl; try (done || lia).
  simpl in He, Hs.
  rewrite (bool_decide_eq_false_2 (Path.base_start r = Path.base_end r))
    by lia.
  rewrite (bool_decide_eq_false_2 (Path.base_end r = -1)) by lia.
  unfold JsString.slice. rewrite He.
  exists (Z.to_nat (Path.base_start r)),
         (Z.to_nat (Z.of_nat (String.length R) - Path.base_start r)).
  split; [lia|]. apply substring_app_l. lia.
Qed.

Lemma basename_is_slice path suffix :
  Path.basename path suffix = "" ∨
  ∃ a b, Path.basename path suffix = JsString.slice path a b.
Proof.
  unfold Path.basename.
  repeat (case_bool_decide || destruct (_ && _)); eauto.
Qed.

End AnyStem.

(** X14: the id an upload answers with never holds whitespace, whatever
    the owner, the bot name, the name of the uploaded file and the clock
    reading; a missing owner or name counts as the text [undefined]. *)
Theorem uploaded_id_never_holds_whitespace req orig date_now :
  JsString.has_whitespace (uploaded_id req orig date_now) = false.
Proof.
  unfold JsString.has_whitespace. apply negb_false_iff.
  unfold uploaded_id, storage_filename. fold (filename_stem req date_now).
  destruct (filename_stem_facts req date_now) as [Hws (c & Hlast & Hc)].
  apply digit_facts in Hc as [_ Hc].
  pose proof (extname_is_extension orig) as Hx.
  destruct (decide (Path.extname orig = "")) as [->|Hne].
  - rewrite app_empty_r.
    destruct (basename_is_slice (filename_stem req date_now)
                (Path.extname (filename_stem req date_now)))
      as [->|(a & b & ->)]; [done|].
    by apply every_substring.
  - rewrite (extname_after_stem _ c _ Hlast Hc Hx Hne).
    destruct (basename_after_stem _ c _ Hlast Hc Hx Hne)
      as (a & k & _ & ->).
    by apply every_substring.
Qed.

(** ** The id and the file type with plain names *)

Section PlainNames.

Lemma spec_bot_id_ordinary owner bot_name date_now :
  JsObject.is_prototype_key (spec_bot_id owner bot_name date_now) = false.
Proof.
  destruct (filename_stem_facts
              {| body_username := Some owner; body_bot_name := Some bot_name;
                 bot_file := None |} date_now) as [_ (c & Hlast & Hc)].
  by eapply ends_with_digit_ordinary.
Qed.

End PlainNames.

(** X15: when the [filename] callback reads an owner and a bot name free
    of dots and slashes, the name it gives the stored file is
    [{owner}_{name}_{clock reading}], whitespace runs replaced by one
    underscore, followed by the extension of the uploaded file's name;
    from that name the handler recovers exactly that id, whatever the
    uploaded file is called, and derives as file type the extension of
    the uploaded file's name without its dot.  The id holds no whitespace
    and is no property name of [Object.prototype]. *)
Theorem plain_names_give_spec_id req owner bot_name orig date_now :
  body_username req = Some owner → body_bot_name req = Some bot_name →
  Path.is_plain owner = true → Path.is_plain bot_name = true →
  let botId := spec_bot_id owner bot_name date_now in
  let fname := storage_filename req orig date_now in
  fname = botId +:+ Path.extname orig ∧
  Path.basename fname (Path.extname fname) = botId ∧
  JsString.substring1 (Path.extname fname)
    = JsString.substring1 (Path.extname orig) ∧
  JsString.has_whitespace botId = false ∧
  JsObject.is_prototype_key botId = false ∧
  botId ≠ "__proto__".
Proof.
  intros Hu Hn Ho Hb botId fname.
  destruct (spec_bot_id_plain owner bot_name date_now Ho Hb) as [HR Hne].
  assert (Hfname : fname = botId +:+ Path.extname orig).
  { unfold fname, storage_filename. by rewrite Hu, Hn. }
  pose proof (extname_is_extension orig) as Hext.
  pose proof (spec_bot_id_ordinary owner bot_name date_now) as Hk.
  rewrite Hfname. fold botId in HR, Hne, Hk.
  rewrite (extname_plain _ _ HR Hne Hext), (basename_plain _ _ HR Hne Hext).
  do 3 (split; [done|]).
  split; [apply spec_bot_id_no_whitespace|]. split; [done|].
  intros Heq. by rewrite Heq in Hk.
Qed.

Lemma plain_names_give_spec_id_witness :
  Path.basename (filename alice_file) (Path.extname (filename alice_file))
    = alice_id ∧
  JsString.substring1 (Path.extname (filename alice_file)) = "py".
Proof.
  destruct (plain_names_give_spec_id alice_upload "alice" "echoBot" "bot.py"
              1700000000000 eq_refl eq_refl)
    as (_ & Hid & Hty & _); [vm_compute; reflexivity ..|].
  vm_compute in Hid, Hty. vm_compute. split; [exact Hid|exact Hty].
Defined.

(** ** The whole life of a stored bot *)

(** X16: the whole life of a stored bot whose id is no property name of
    [Object.prototype] and that is not registered: a start succeeds and
    spawns [python3] on the stored file when the record's [file_type] is
    [py] and [node] otherwise; the bot is then reported as running; a stop
    succeeds, kills that process and leaves the record [stopped] with
    both times; a delete succeeds and leaves the record store without the
    id, the registry as it was at the beginning and the stored file gone;
    the status route then answers [NotFound].  The process effects of the
    three steps are one spawn and one kill of the same process. *)
Theorem stored_bot_whole_life s botId bot t1 t2 :
  bots_db s !! botId = Some bot →
  runningProcesses s !! botId = None →
  JsObject.is_prototype_key botId = false →
  let process :=
    {| spawn_command := if bool_decide (Bot.file_type bot = "py")
                        then "python3" else "node";
       spawn_args := [Bot.file_path bot] |} in
  let s1 := (post_start botId t1 s).2 in
  let s2 := (post_stop botId t2 s1).2 in
  let s3 := (delete_bot botId s2).2 in
  (post_start botId t1 s).1 = Ok "Bot started successfully" ∧
  runningProcesses s1 !! botId = Some process ∧
  liveness s1 botId = "running" ∧
  (post_stop botId t2 s1).1 = Ok "Bot stopped successfully" ∧
  liveness s2 botId = "stopped" ∧
  bots_db s2 !! botId
    = Some (Bot.with_stopped_at t2
              (Bot.with_status "stopped"
                 (Bot.with_started_at t1 (Bot.with_status "running" bot)))) ∧
  (delete_bot botId s2).1 = Ok "Bot deleted successfully" ∧
  effects s3 = (effects s ++ [Spawned process; Killed process])%list ∧
  bots_db s3 = delete botId (bots_db s) ∧
  runningProcesses s3 = runningProcesses s ∧
  files s3 = files s ∖ {[ Bot.file_path bot ]} ∧
  get_status botId s3 = (NotFound, s3).
Proof.
  intros Hbot Hfree Hk process s1 s2 s3.
  change process with (spawned_for bot) in *.
  unfold s3, s2, s1.
  rewrite (post_start_spawns _ botId t1 bot Hbot)
    by (by rewrite (get_ordinary _ _ Hk), Hfree).
  simpl. rewrite lookup_insert_eq. do 2 (split; [done|]).
  split.
  { unfold liveness; simpl.
    by rewrite (get_own _ _ (spawned_for bot)) by apply lookup_insert_eq. }
  rewrite (post_stop_running _ botId t2 (started t1 bot) (spawned_for bot));
    simpl; try apply lookup_insert_eq.
  split; [done|].
  split.
  { unfold liveness; simpl.
    by rewrite (get_ordinary _ _ Hk), lookup_delete_eq. }
  rewrite lookup_insert_eq. split; [done|].
  rewrite (delete_bot_ordinary _ botId (stopped t2 (started t1 bot)));
    simpl; [|apply lookup_insert_eq|done].
  split; [done|].
  rewrite lookup_delete_eq, app_nil_r, <- app_assoc.
  split; [done|].
  rewrite !insert_insert_eq, delete_insert_eq.
  split; [done|].
  assert (delete botId (delete botId (<[botId:=spawned_for bot]>
                                        (runningProcesses s)))
          = runningProcesses s) as Hreg.
  { by rewrite delete_insert_eq, !(delete_id _ _ Hfree). }
  rewrite Hreg. do 2 (split; [done|]).
  match goal with |- get_status _ ?st = _ =>
    destruct (unknown_ordinary_id_not_found st botId t1) as (_&_&_&H&_)
  end; simpl; [apply lookup_delete_eq|done|done].
Qed.

Lemma stored_bot_whole_life_witness :
  (post_start alice_id "2023-11-14T22:14:00.000Z" alice_stored).1
    = Ok "Bot started successfully" ∧
  runningProcesses
    (post_start alice_id "2023-11-14T22:14:00.000Z" alice_stored).2
    !! alice_id
    = Some {| spawn_command := "python3";
              spawn_args :=
                ["user_bots/alice/alice_echoBot_1700000000000.py"] |} ∧
  files (delete_bot alice_id
           (post_stop alice_id "2023-11-14T22:15:00.000Z"
              (post_start alice_id "2023-11-14T22:14:00.000Z"
                 alice_stored).2).2).2 = ∅.
Proof.
  assert (Hbot : ∃ bot, bots_db alice_stored !! alice_id = Some bot ∧
                        Bot.file_type bot = "py" ∧
                        Bot.file_path bot
                        = "user_bots/alice/alice_echoBot_1700000000000.py" ∧
                        files alice_stored = {[ Bot.file_path bot ]})
    by (eexists; split; [vm_compute; reflexivity|];
        split; [reflexivity|]; split; [reflexivity|];
        vm_compute; reflexivity).
  destruct Hbot as (bot & Hbot & Hty & Hpath & Hfiles).
  destruct (stored_bot_whole_life alice_stored alice_id bot
              "2023-11-14T22:14:00.000Z" "2023-11-14T22:15:00.000Z" Hbot)
    as (Hstart & Hreg & _ & _ & _ & _ & _ & _ & _ & _ & Hgone & _);
    [vm_compute; reflexivity ..|].
  split; [exact Hstart|]. rewrite Hty, Hpath in Hreg.
  split; [exact Hreg|]. rewrite Hgone, Hfiles. apply difference_diag_L.
Defined.

(** ** The answers of start and of the logs *)

(** X17: what an answer of start tells about the state it was sent to.
    [NotFound] is answered only to an id without a record that is no
    property name of [Object.prototype].  [AlreadyRunning] is answered
    only to an id that has a registry entry or is such a property name,
    and then has a record or is such a name.  Success is answered only to
    an id that has a record, has no registry entry and is no such name,
    and then exactly one process was spawned and registered under the id,
    the record reads [running] with the start time, and no other record,
    no other registry entry and no file was touched. *)
Theorem start_answer_meaning s botId now :
  ((post_start botId now s).1 = NotFound →
   bots_db s !! botId = None ∧ JsObject.is_prototype_key botId = false) ∧
  ((post_start botId now s).1 = AlreadyRunning →
   (is_Some (runningProcesses s !! botId)
    ∨ JsObject.is_prototype_key botId = true) ∧
   (is_Some (bots_db s !! botId)
    ∨ JsObject.is_prototype_key botId = true)) ∧
  ((post_start botId now s).1 = Ok "Bot started successfully" →
   ∃ bot,
     bots_db s !! botId = Some bot ∧
     runningProcesses s !! botId = None ∧
     JsObject.is_prototype_key botId = false ∧
     (post_start botId now s).2 =
       {| bots_db :=
            <[botId := Bot.with_started_at now
                         (Bot.with_status "running" bot)]> (bots_db s);
          runningProcesses :=
            <[botId := {| spawn_command := interpreter (Bot.file_type bot);
                          spawn_args := [Bot.file_path bot] |}]>
              (runningProcesses s);
          files := files s;
          effects := effects s ++
                     [Spawned {| spawn_command :=
                                   interpreter (Bot.file_type bot);
                                 spawn_args := [Bot.file_path bot] |}] |}).
Proof.
  split; [|split].
  - unfold post_start, loadBots, JsObject.get, JsObject.truthy.
    destruct (bots_db s !! botId) as [bot|] eqn:Hbot,
      (runningProcesses s !! botId) as [p|] eqn:Hp,
      (JsObject.is_prototype_key botId) eqn:Hk; simpl; done.
  - unfold post_start, loadBots, JsObject.get, JsObject.truthy.
    destruct (bots_db s !! botId) as [bot|] eqn:Hbot,
      (runningProcesses s !! botId) as [p|] eqn:Hp,
      (JsObject.is_prototype_key botId) eqn:Hk; simpl;
      try done; intros _; split; eauto.
  - intros Hok.
    destruct (post_start_cases s botId now)
      as [[Hfail _]|(bot & Hbot & Hnone & Hk & Heq)].
    + by rewrite Hok in Hfail.
    + exists bot. do 3 (split; [done|]). by rewrite Heq.
Qed.

(** X22: two starts in succession of a stored bot whose id is no
    property name of [Object.prototype] and that is not registered: the
    first succeeds, the second answers [AlreadyRunning] and changes
    nothing, and one process was spawned in all. *)
Theorem start_twice_of_ordinary_bot s botId t1 t2 bot :
  bots_db s !! botId = Some bot →
  runningProcesses s !! botId = None →
  JsObject.is_prototype_key botId = false →
  (post_start botId t1 s).1 = Ok "Bot started successfully" ∧
  post_start botId t2 (post_start botId t1 s).2
  = (AlreadyRunning, (post_start botId t1 s).2) ∧
  effects (post_start botId t2 (post_start botId t1 s).2).2
  = (effects s ++
     [Spawned {| spawn_command := interpreter (Bot.file_type bot);
                 spawn_args := [Bot.file_path bot] |}])%list.
Proof.
  intros Hbot Hreg Hk.
  rewrite (post_start_spawns _ _ _ _ Hbot)
    by (by rewrite (get_ordinary _ _ Hk), Hreg).
  split; [done|]. simpl.
  erewrite post_start_already_running; [done|simpl; apply lookup_insert_eq..].
Qed.

Lemma start_twice_of_ordinary_bot_witness :
  (post_start alice_id "2023-11-14T22:14:00.000Z" alice_stored).1
    = Ok "Bot started successfully" ∧
  (post_start alice_id "2023-11-14T22:14:30.000Z"
     (post_start alice_id "2023-11-14T22:14:00.000Z" alice_stored).2).1
    = AlreadyRunning.
Proof.
  assert (Hbot : ∃ bot, bots_db alice_stored !! alice_id = Some bot)
    by (eexists; vm_compute; reflexivity).
  destruct Hbot as (bot & Hbot).
  destruct (start_twice_of_ordinary_bot alice_stored alice_id
              "2023-11-14T22:14:00.000Z" "2023-11-14T22:14:30.000Z" bot Hbot)
    as (Hfirst & Hsecond & _); [vm_compute; reflexivity ..|].
  split; [exact Hfirst|]. by rewrite Hsecond.
Defined.

(** X18: the logs route never changes the state, and what it answers for
    a started bot is built from the record and the registry alone: after
    a successful start at a time [t1] the text names the bot, says
    [Running], and gives the creation time and [t1] as the last start;
    after the following stop it says [Stopped] and still gives [t1]. *)
Theorem logs_follow_start_and_stop s botId t1 t2 :
  succeeded (post_start botId t1 s).1 = true →
  t1 ≠ "" →
  ∃ bot,
    bots_db s !! botId = Some bot ∧
    let s1 := (post_start botId t1 s).2 in
    let s2 := (post_stop botId t2 s1).2 in
    get_logs botId s1 =
      (Json 200 true
         (Logs (((("Bot: " +:+ Bot.name bot +:+ newline)
                  +:+ "Status: " +:+ "Running" +:+ newline)
                 +:+ "Created: " +:+ Bot.created_at bot +:+ newline)
                +:+ "Last started: " +:+ t1 +:+ newline)), s1) ∧
    get_logs botId s2 =
      (Json 200 true
         (Logs (((("Bot: " +:+ Bot.name bot +:+ newline)
                  +:+ "Status: " +:+ "Stopped" +:+ newline)
                 +:+ "Created: " +:+ Bot.created_at bot +:+ newline)
                +:+ "Last started: " +:+ t1 +:+ newline)), s2).
Proof.
  intros Hok Ht.
  destruct (post_start_cases s botId t1)
    as [[Hfail _]|(bot & Hbot & Hnone & Hk & Heq)]; [congruence|].
  exists bot. split; [done|]. rewrite Heq. simpl.
  rewrite (post_stop_running _ _ _ (started t1 bot) (spawned_for bot));
    simpl; try apply lookup_insert_eq.
  split; unfold get_logs, loadBots; simpl.
  - rewrite (get_own _ _ (started t1 bot)) by apply lookup_insert_eq.
    rewrite (get_own _ _ (spawned_for bot)) by apply lookup_insert_eq.
    simpl. by rewrite (bool_decide_eq_false_2 _ Ht).
  - rewrite (get_own _ _ (stopped t2 (started t1 bot)))
      by apply lookup_insert_eq.
    rewrite (get_ordinary _ _ Hk), lookup_delete_eq.
    simpl. by rewrite (bool_decide_eq_false_2 _ Ht).
Qed.

Lemma logs_follow_start_and_stop_witness :
  (get_logs alice_id after_alice_start).1 =
    Json 200 true
      (Logs ("Bot: echoBot" +:+ newline +:+ "Status: Running" +:+ newline
             +:+ "Created: 2023-11-14T22:13:20.000Z" +:+ newline
             +:+ "Last started: 2023-11-14T22:14:00.000Z" +:+ newline)).
Proof.
  destruct (logs_follow_start_and_stop after_alice_upload alice_id
              "2023-11-14T22:14:00.000Z" "2023-11-14T22:15:00.000Z")
    as (bot & Hbot & Hlogs & _); [vm_compute; reflexivity || discriminate ..|].
  vm_compute in Hbot. injection Hbot as <-.
  apply (f_equal fst) in Hlogs. vm_compute in Hlogs. vm_compute.
  exact Hlogs.
Defined.

(** ** Ids that are no property names of [Object.prototype] *)

(** X19: an id that has no record and is no property name of
    [Object.prototype] is answered with [NotFound] by start, stop, delete,
    status and logs, whatever the registry holds, and the state stays as
    it was. *)
Theorem unknown_ordinary_ids_are_not_found s botId now :
  bots_db s !! botId = None →
  JsObject.is_prototype_key botId = false →
  post_start botId now s = (NotFound, s) ∧
  post_stop botId now s = (NotFound, s) ∧
  delete_bot botId s = (NotFound, s) ∧
  get_status botId s = (NotFound, s) ∧
  get_logs botId s = (NotFound, s).
Proof. apply unknown_ordinary_id_not_found. Qed.

Lemma unknown_ordinary_ids_are_not_found_witness :
  post_start "ghost" "2023-11-14T22:14:00.000Z" after_alice_start
    = (NotFound, after_alice_start) ∧
  post_stop "ghost" "2023-11-14T22:14:00.000Z" after_alice_start
    = (NotFound, after_alice_start) ∧
  delete_bot "ghost" after_alice_start = (NotFound, after_alice_start) ∧
  get_status "ghost" after_alice_start = (NotFound, after_alice_start) ∧
  get_logs "ghost" after_alice_start = (NotFound, after_alice_start).
Proof.
  refine (unknown_ordinary_ids_are_not_found after_alice_start "ghost"
            "2023-11-14T22:14:00.000Z" _ _); vm_compute; reflexivity.
Defined.

(** X20: for a record whose id is no property name of
    [Object.prototype], a stop without a registry entry answers
    [NotRunning] and changes nothing; with a registry entry it succeeds,
    kills that process, removes the entry at once, and saves the record
    with the status [stopped] and the stop time, all other fields and all
    files as they were. *)
Theorem stop_of_ordinary_bot s botId now bot :
  bots_db s !! botId = Some bot →
  JsObject.is_prototype_key botId = false →
  (runningProcesses s !! botId = None →
   post_stop botId now s = (NotRunning, s)) ∧
  (∀ p, runningProcesses s !! botId = Some p →
     post_stop botId now s =
       (Ok "Bot stopped successfully",
        {| bots_db :=
             <[botId := Bot.with_stopped_at now
                          (Bot.with_status "stopped" bot)]> (bots_db s);
           runningProcesses := delete botId (runningProcesses s);
           files := files s;
           effects := effects s ++ [Killed p] |})).
Proof.
  intros Hbot Hk. split.
  - intros Hnone. by eapply post_stop_not_running.
  - intros p Hp. by apply post_stop_running.
Qed.

Lemma stop_of_ordinary_bot_witness :
  post_stop alice_id "2023-11-14T22:15:00.000Z" after_alice_upload
  = (NotRunning, after_alice_upload).
Proof.
  refine (proj1 (stop_of_ordinary_bot after_alice_upload alice_id
                   "2023-11-14T22:15:00.000Z" alice_bot _ _) _);
    vm_compute; reflexivity.
Defined.

(** X21: for a record whose id is no property name of
    [Object.prototype], a delete succeeds whether the bot runs or not and
    whether its file is on disk or not: a registered process is killed
    and deregistered, the file is gone, the record is gone; afterwards
    start, stop, status and logs answer [NotFound] for the id. *)
Theorem delete_of_ordinary_bot s botId bot now :
  bots_db s !! botId = Some bot →
  JsObject.is_prototype_key botId = false →
  let s' := (delete_bot botId s).2 in
  delete_bot botId s =
    (Ok "Bot deleted successfully",
     {| bots_db := delete botId (bots_db s);
        runningProcesses := delete botId (runningProcesses s);
        files := files s ∖ {[ Bot.file_path bot ]};
        effects := effects s ++
                   match runningProcesses s !! botId with
                   | Some p => [Killed p]
                   | None => []
                   end |}) ∧
  post_start botId now s' = (NotFound, s') ∧
  post_stop botId now s' = (NotFound, s') ∧
  get_status botId s' = (NotFound, s') ∧
  get_logs botId s' = (NotFound, s').
Proof.
  intros Hbot Hk s'.
  split; [by apply delete_bot_ordinary|].
  by destruct (delete_bot_then_not_found s botId bot now Hbot Hk)
    as (_ & _ & _ & ? & ? & ? & ?).
Qed.

Lemma delete_of_ordinary_bot_witness :
  (delete_bot alice_id after_alice_start).1 = Ok "Bot deleted successfully" ∧
  get_status alice_id (delete_bot alice_id after_alice_start).2
  = (NotFound, (delete_bot alice_id after_alice_start).2).
Proof.
  destruct (delete_of_ordinary_bot after_alice_start alice_id
              (started "2023-11-14T22:14:00.000Z" alice_bot)
              "2023-11-14T22:16:00.000Z")
    as (Hdel & _ & _ & Hstatus & _); [vm_compute; reflexivity ..|].
  split; [by rewrite Hdel|exact Hstatus].
Defined.
